(** * GCS rules core: nameables, prerequisites, skill defaults, feature keys

    A shallow embedding of the rule-evaluation code in
      - src/model/gurps/nameables.go: [ExtractNameables], [ApplyNameables],
        and the WeaponBonus feature ([FeatureMapKey], [buildKey]) that
        follows them in that file;
      - src/model/gurps/contained_weight_prereq.go:
        [ContainedWeightPrereq.Satisfied], and the SkillDefault code
        ([Hash], [CloneWithoutLevelOrPoints], [SkillBased], [SkillLevel],
        [SkillLevelFast]) that follows it in that file;
    together with the properties the specification states about them.

    Go strings are byte strings: they are modelled by [string] (a list of
    8-bit characters).  Go maps are modelled by stdpp's [gmap]; where the
    code ranges over a map, the iteration order is an explicit argument. *)

From Stdlib Require Import ZArith Lia Bool.
From stdpp Require Import base option gmap strings list.

Open Scope string_scope.
Open Scope list_scope.

(** ** The functions of Go's [strings] package that the code calls

    [strings.Count], [strings.Split] and [strings.ReplaceAll] work on bytes
    and look for non-overlapping occurrences from left to right.  The code
    only calls them with a separator that contains the marker ["@"], so the
    special treatment Go gives to an empty separator is left out: the three
    definitions below are meant for a non-empty [substr], [sep] and [old].

    The [skip] argument counts the bytes of an occurrence that has just been
    matched and that the scan still has to step over. *)
Module Strings.

Fixpoint count_from (skip : nat) (substr s : string) : nat :=
  match s with
  | EmptyString => 0
  | String _ s' =>
      match skip with
      | S k => count_from k substr s'
      | O =>
          if String.prefix substr s
          then S (count_from (String.length substr - 1) substr s')
          else count_from 0 substr s'
      end
  end.

(** [strings.Count(s, substr)] *)
Definition Count (s substr : string) : nat := count_from 0 substr s.

Fixpoint split_from (skip : nat) (sep cur s : string) : list string :=
  match s with
  | EmptyString => [cur]
  | String c s' =>
      match skip with
      | S k => split_from k sep cur s'
      | O =>
          if String.prefix sep s
          then cur :: split_from (String.length sep - 1) sep "" s'
          else split_from 0 sep (cur +:+ String c "") s'
      end
  end.

(** [strings.Split(s, sep)] *)
Definition Split (s sep : string) : list string := split_from 0 sep "" s.

Fixpoint replace_from (skip : nat) (old new s : string) : string :=
  match s with
  | EmptyString => ""
  | String c s' =>
      match skip with
      | S k => replace_from k old new s'
      | O =>
          if String.prefix old s
          then new +:+ replace_from (String.length old - 1) old new s'
          else String c (replace_from 0 old new s')
      end
  end.

(** [strings.ReplaceAll(s, old, new)] *)
Definition ReplaceAll (s old new : string) : string := replace_from 0 old new s.

(** [strings.Join(elems, sep)] *)
Fixpoint Join (elems : list string) (sep : string) : string :=
  match elems with
  | [] => ""
  | [one] => one
  | one :: rest => one +:+ sep +:+ Join rest sep
  end.

End Strings.

(** ** Nameables (package model/gurps) *)

(** The body of the [for i, one := range parts] loop of [ExtractNameables],
    started at index [i]. *)
Fixpoint extract_range (count i : nat) (parts : list string)
    (existing m : gmap string string) : gmap string string :=
  match parts with
  | [] => m
  | one :: rest =>
      extract_range count (S i) rest existing
        (if ((i mod 2 =? 1) && (i <? count))%nat
         then match existing !! one with
              | Some value => <[one := value]> m
              | None => <[one := one]> m
              end
         else m)
  end.

(** [ExtractNameables(str, m, existing)]; the result is the content of [m]
    when the call returns.  [m] is a map that can be written to (Go panics on
    a write to a nil map); a nil [existing] reads as the empty map. *)
Definition ExtractNameables (str : string) (m existing : gmap string string)
    : gmap string string :=
  let count := Strings.Count str "@" in
  if (1 <? count)%nat
  then extract_range count 0 (Strings.Split str "@") existing m
  else m.

(** Go does not fix the order in which [range] visits a map: an iteration
    order of [m] is any list that holds every entry of [m] exactly once. *)
Definition iteration_of (m : gmap string string) (order : list (string * string)) : Prop :=
  order ≡ₚ map_to_list m.

(** [ApplyNameables(str, m)], with the order in which the [range] over [m]
    visits its entries. *)
Definition ApplyNameables (str : string) (order : list (string * string)) : string :=
  if (1 <? Strings.Count str "@")%nat
  then foldl (λ str kv, Strings.ReplaceAll str ("@" +:+ kv.1 +:+ "@") kv.2) str order
  else str.

(** The loop [for i := range list { list[i] = ApplyNameables(in[i], m) }] of
    [ApplyNameablesToList] over the indices that are left; [in_] and [list_]
    have the same length, so both index expressions are in range. *)
Fixpoint apply_list_range (in_ : list string) (order : list (string * string))
    (indices : list nat) (list_ : list string) : list string :=
  match indices with
  | [] => list_
  | i :: rest =>
      apply_list_range in_ order rest
        (<[i := ApplyNameables (default "" (in_ !! i)) order]> list_)
  end.

(** [ApplyNameablesToList(in, m)]; the nil slice it returns for an empty
    input is the empty list. *)
Definition ApplyNameablesToList (in_ : list string) (order : list (string * string))
    : list string :=
  if (length in_ =? 0)%nat
  then []
  else apply_list_range in_ order (seq 0 (length in_)) (replicate (length in_) "").

(** [RetainNeededReplacements(needed, replacements)], with the order in which
    the [range] over [replacements] visits its entries. *)
Definition RetainNeededReplacements (needed : gmap string string)
    (order : list (string * string)) : gmap string string :=
  foldl (λ ret kv,
           match needed !! kv.1 with
           | Some _ => <[kv.1 := kv.2]> ret
           | None => ret
           end) ∅ order.

(** The segments [ExtractNameables] takes as keys. *)
Definition candidate_key (str key : string) : Prop :=
  ∃ i, Strings.Split str "@" !! i = Some key ∧ i mod 2 = 1 ∧ i < Strings.Count str "@".

(** No value of the map contains the marker. *)
Definition marker_free_values (m : gmap string string) : Prop :=
  ∀ k v, m !! k = Some v → Strings.Count v "@" = 0.


(** ** model/fxp and encoding/binary

    [fxp.Int] is a Go numeric type: the code compares values with [<] and
    [!=], adds them with [+] and assigns the literal [0].  Its declaration,
    its constants and its methods (package model/fxp) are not among the source
    files, so a value is modelled by the integer that represents it and
    everything the declaration decides is a field of the class [fxp.Ops]:
    what [+] does at the bounds of the type, the constants, the methods [Div],
    [Trunc] and [Min], the conversion [From] and the number of bytes
    [binary.Write] emits for a value. *)
Module fxp.

Abbreviation Int := Z (only parsing).

Class Ops := {
  Min : Int;                  (* fxp.Min, the "undefined" sentinel *)
  Two : Int;
  Three : Int;
  Five : Int;
  Twenty : Int;
  add : Int → Int → Int;      (* Go's + on fxp.Int *)
  Div : Int → Int → Int;      (* x.Div(y) *)
  Trunc : Int → Int;          (* x.Trunc() *)
  Int_Min : Int → Int → Int;  (* x.Min(y) *)
  From : Z → Int;             (* fxp.From(n) for a Go int n *)
  Size : nat;                 (* binary.Size of an fxp.Int, in bytes *)
}.

End fxp.

Module binary.

Definition byte_of_Z (x : Z) : Byte.byte :=
  match Byte.of_N (Z.to_N (x mod 256)) with
  | Some b => b
  | None => Byte.x00
  end.

(** The [size] bytes [binary.Write(h, binary.LittleEndian, x)] emits for an
    integer [x] of a type that is [size] bytes wide (two's complement, least
    significant byte first). *)
Fixpoint LittleEndian (size : nat) (x : Z) : list Byte.byte :=
  match size with
  | O => []
  | S n => byte_of_Z x :: LittleEndian n (x / 256)
  end.

(** The integer below [256 ^ length bs] a little-endian byte list stands for. *)
Fixpoint le_value (bs : list Byte.byte) : Z :=
  match bs with
  | [] => 0
  | b :: rest => Z.of_N (Byte.to_N b) + 256 * le_value rest
  end.

End binary.

(** [[]byte(s)] *)
Definition bytes_of_string (s : string) : list Byte.byte :=
  Ascii.byte_of_ascii <$> String.list_ascii_of_string s.

(** ** What the code takes from the rest of the program

    The entity, its skills and its equipment, the weight criteria, the
    default-type identifiers, the text tables and two functions of Go's
    [strings] package that depend on Unicode tables are not among the source
    files.  The code under study only calls them; they are the fields of this
    class, named as the code names them. *)
Class Model {ops : fxp.Ops} := {
  Entity : Type;
  Skill : Type;
  Equipment : Type;
  WeightUnits : Type;
  Weight : Type;
  WeightCriteria : Type;
  PrereqType : Type;
  (* identifiers of the default types; the code uses them as the cases of one
     switch, which Go only accepts for constants that differ *)
  SkillID : string;
  ParryID : string;
  BlockID : string;
  DodgeID : string;
  DefaultTypeIDs_differ : NoDup [DodgeID; ParryID; BlockID; SkillID];
  SkillNameID : string;
  (* strings.ToLower, strings.TrimSpace *)
  ToLower : string → string;
  TrimSpace : string → string;
  (* i18n.Text, HasText *)
  i18n_Text : string → string;
  HasText : bool → string;
  (* Entity *)
  ParryBonus : Entity → fxp.Int;
  BlockBonus : Entity → fxp.Int;
  UseHalfStatDefaults : Entity → bool;          (* entity.SheetSettings.UseHalfStatDefaults *)
  DefaultWeightUnits : Entity → WeightUnits;    (* SheetSettingsFor(entity).DefaultWeightUnits *)
  EncumbranceLevel : Entity → bool → Z;
  Dodge : Entity → Z → Z;
  ResolveAttributeCurrent : Entity → string → fxp.Int;
  SkillNamed : Entity → string → string → bool → gmap string bool → list Skill;
  (* Skill *)
  LevelData_Level : Skill → fxp.Int;                       (* sk.LevelData.Level *)
  CalculateLevel_Level : Skill → gmap string bool → fxp.Int;  (* sk.CalculateLevel(excludes).Level *)
  (* Equipment *)
  Container : Equipment → bool;
  ExtendedWeight : Equipment → bool → WeightUnits → Weight;
  AdjustedWeight : Equipment → bool → WeightUnits → Weight;
  Weight_sub : Weight → Weight → Weight;        (* Go's - on fxp.Weight *)
  (* WeightCriteria *)
  Matches : WeightCriteria → Weight → bool;
  WeightCriteria_String : WeightCriteria → string;
}.

(** ** SkillDefault (package model/gurps) *)
Module SkillDefault.

Record t := mk {
  DefaultType : string;
  Name : string;
  Specialization : string;
  Modifier : fxp.Int;
  Level : fxp.Int;
  AdjLevel : fxp.Int;
  Points : fxp.Int;
}.

(** A [*SkillDefault] is an address in a store of SkillDefault values. *)
Abbreviation ptr := positive (only parsing).
Abbreviation store := (gmap positive t) (only parsing).

(** [s.CloneWithoutLevelOrPoints()]: the address of the copy and the store
    after the call; [None] when [s] points to nothing (Go panics). *)
Definition CloneWithoutLevelOrPoints (s : ptr) (σ : store) : option (ptr * store) :=
  match σ !! s with
  | None => None
  | Some clone =>
      let clone := mk (DefaultType clone) (Name clone) (Specialization clone)
                      (Modifier clone) 0 (AdjLevel clone) (Points clone) in
      let clone := mk (DefaultType clone) (Name clone) (Specialization clone)
                      (Modifier clone) (Level clone) 0 (Points clone) in
      let clone := mk (DefaultType clone) (Name clone) (Specialization clone)
                      (Modifier clone) (Level clone) (AdjLevel clone) 0 in
      let p := fresh (dom σ) in
      Some (p, <[p := clone]> σ)
  end.

(** [s.Hash(h)]: the hasher is the list of the bytes written to it. *)
Definition Hash {ops : fxp.Ops} (s : t) (h : list Byte.byte) : list Byte.byte :=
  let h := h ++ bytes_of_string (DefaultType s) in
  let h := h ++ bytes_of_string (Name s) in
  let h := h ++ bytes_of_string (Specialization s) in
  h ++ binary.LittleEndian fxp.Size (Modifier s).

Section WithModel.
Context {ops : fxp.Ops} {model : Model}.

(** [var skillBasedDefaultTypes = map[string]bool{...}] *)
Definition skillBasedDefaultTypes : gmap string bool :=
  <[BlockID := true]> (<[ParryID := true]> (<[SkillID := true]> ∅)).

(** Reading a [map[string]bool] at a key it does not hold gives [false]. *)
Definition map_index (m : gmap string bool) (k : string) : bool :=
  default false (m !! k).

Definition DefaultTypeIsSkillBased (skillDefaultType : string) : bool :=
  map_index skillBasedDefaultTypes (ToLower (TrimSpace skillDefaultType)).

Definition Type_ (s : t) : string := DefaultType s.

Definition SkillBased (s : t) : bool :=
  map_index skillBasedDefaultTypes (ToLower (TrimSpace (DefaultType s))).

(** The [replacements] map as one receiver's calls see it.  Go draws the
    order of every [range] over a map anew, so the argument carries the order
    of the loop that [NameWithReplacements] runs and the order of the loop
    that [SpecializationWithReplacements] runs. *)
Record Replacements := mkReplacements {
  name_order : list (string * string);
  specialization_order : list (string * string);
}.

(** Both loops visit the entries of the map [m]. *)
Definition Replacements_of (m : gmap string string) (replacements : Replacements) : Prop :=
  iteration_of m (name_order replacements)
  ∧ iteration_of m (specialization_order replacements).

(** The empty map: there is one order to visit it in. *)
Definition no_replacements : Replacements := mkReplacements [] [].

Definition NameWithReplacements (s : t) (replacements : Replacements) : string :=
  ApplyNameables (Name s) (name_order replacements).

Definition SpecializationWithReplacements (s : t) (replacements : Replacements) : string :=
  ApplyNameables (Specialization s) (specialization_order replacements).

Definition finalLevel (s : t) (level : fxp.Int) : fxp.Int :=
  if bool_decide (level ≠ fxp.Min) then fxp.add level (Modifier s) else level.

(** The loop of [best]: [best] is the running maximum. *)
Fixpoint best_range (excludes : gmap string bool) (skills : list Skill) (best : fxp.Int) : fxp.Int :=
  match skills with
  | [] => best
  | sk :: rest =>
      best_range excludes rest
        (if (best <? LevelData_Level sk)%Z
         then let level := CalculateLevel_Level sk excludes in
              if (best <? level)%Z then level else best
         else best)
  end.

Definition best (s : t) (entity : Entity) (replacements : Replacements)
    (requirePoints : bool) (excludes : gmap string bool) : fxp.Int :=
  best_range excludes
    (SkillNamed entity (NameWithReplacements s replacements)
       (SpecializationWithReplacements s replacements) requirePoints excludes)
    fxp.Min.

(** The loop of [bestFast]. *)
Fixpoint bestFast_range (skills : list Skill) (best : fxp.Int) : fxp.Int :=
  match skills with
  | [] => best
  | sk :: rest =>
      bestFast_range rest
        (if (best <? LevelData_Level sk)%Z then LevelData_Level sk else best)
  end.

Definition bestFast (s : t) (entity : Entity) (replacements : Replacements)
    (requirePoints : bool) (excludes : gmap string bool) : fxp.Int :=
  bestFast_range
    (SkillNamed entity (NameWithReplacements s replacements)
       (SpecializationWithReplacements s replacements) requirePoints excludes)
    fxp.Min.

Definition SkillLevelFast (s : t) (entity : Entity) (replacements : Replacements)
    (requirePoints : bool) (excludes : gmap string bool) (ruleOf20 : bool) : fxp.Int :=
  if String.eqb (Type_ s) DodgeID then
    let level := Dodge entity (EncumbranceLevel entity false) in
    let level := if ruleOf20 && (20 <? level)%Z then 20%Z else level in
    finalLevel s (fxp.From level)
  else if String.eqb (Type_ s) ParryID then
    let best := bestFast s entity replacements requirePoints excludes in
    let best := if bool_decide (best ≠ fxp.Min)
                then fxp.add (fxp.add (fxp.Trunc (fxp.Div best fxp.Two)) fxp.Three) (ParryBonus entity)
                else best in
    finalLevel s best
  else if String.eqb (Type_ s) BlockID then
    let best := bestFast s entity replacements requirePoints excludes in
    let best := if bool_decide (best ≠ fxp.Min)
                then fxp.add (fxp.add (fxp.Trunc (fxp.Div best fxp.Two)) fxp.Three) (BlockBonus entity)
                else best in
    finalLevel s best
  else if String.eqb (Type_ s) SkillID then
    finalLevel s (bestFast s entity replacements requirePoints excludes)
  else
    let level := ResolveAttributeCurrent entity (Type_ s) in
    let level := if ruleOf20 then fxp.Int_Min level fxp.Twenty else level in
    let level := if UseHalfStatDefaults entity
                 then fxp.add (fxp.Trunc (fxp.Div level fxp.Two)) fxp.Five
                 else level in
    finalLevel s level.

Definition SkillLevel (s : t) (entity : Entity) (replacements : Replacements)
    (requirePoints : bool) (excludes : gmap string bool) (ruleOf20 : bool) : fxp.Int :=
  if String.eqb (Type_ s) ParryID then
    let best := best s entity replacements requirePoints excludes in
    let best := if bool_decide (best ≠ fxp.Min)
                then fxp.add (fxp.add (fxp.Trunc (fxp.Div best fxp.Two)) fxp.Three) (ParryBonus entity)
                else best in
    finalLevel s best
  else if String.eqb (Type_ s) BlockID then
    let best := best s entity replacements requirePoints excludes in
    let best := if bool_decide (best ≠ fxp.Min)
                then fxp.add (fxp.add (fxp.Trunc (fxp.Div best fxp.Two)) fxp.Three) (BlockBonus entity)
                else best in
    finalLevel s best
  else if String.eqb (Type_ s) SkillID then
    finalLevel s (best s entity replacements requirePoints excludes)
  else
    SkillLevelFast s entity replacements requirePoints excludes ruleOf20.

(** [s.Equivalent(replacements, other)]; [None] is the nil pointer.  The call
    runs four loops over the map: [replacements] holds the orders of the two
    run on [s], [other_replacements] the orders of the two run on [other]. *)
Definition Equivalent (s : t) (replacements : Replacements) (other : option t)
    (other_replacements : Replacements) : bool :=
  match other with
  | None => false
  | Some other =>
      String.eqb (DefaultType s) (DefaultType other)
      && (Modifier s =? Modifier other)%Z
      && String.eqb (NameWithReplacements s replacements)
                    (NameWithReplacements other other_replacements)
      && String.eqb (SpecializationWithReplacements s replacements)
                    (SpecializationWithReplacements other other_replacements)
  end.

(** [s.FillWithNameableKeys(m, existing)]; the result is the content of [m]
    when the call returns. *)
Definition FillWithNameableKeys (s : t) (m existing : gmap string string)
    : gmap string string :=
  let m := ExtractNameables (Name s) m existing in
  ExtractNameables (Specialization s) m existing.

End WithModel.
End SkillDefault.

(** ** ContainedWeightPrereq (package model/gurps) *)
Module ContainedWeightPrereq.
Section WithModel.
Context {ops : fxp.Ops} {model : Model}.

Record t := mk {
  Parent : option positive;       (* *PrereqList *)
  Type_ : PrereqType;
  Has : bool;
  WeightCriteria_ : WeightCriteria;
}.

(** The [exclude any] argument, by its dynamic type: the type assertion
    to [*Equipment] succeeds for the first constructor only. *)
Inductive any :=
  | any_Equipment (eqp : Equipment)
  | any_other.

(** [tooltip.WriteString(s)] on the content of the buffer. *)
Definition WriteString (buffer s : string) : string := buffer +:+ s.

(** [c.Satisfied(entity, exclude, tooltip, prefix, _)]: the result and the
    content of the tooltip buffer after the call ([None] is the nil buffer). *)
Definition Satisfied (c : t) (entity : Entity) (exclude : any)
    (tooltip : option string) (prefix : string) : bool * option string :=
  let satisfied := false in
  let satisfied :=
    match exclude with
    | any_Equipment eqp =>
        let satisfied := negb (Container eqp) in
        if negb satisfied then
          let units := DefaultWeightUnits entity in
          let weight := Weight_sub (ExtendedWeight eqp false units)
                                   (AdjustedWeight eqp false units) in
          Matches (WeightCriteria_ c) weight
        else satisfied
    | any_other => satisfied
    end in
  let satisfied := if negb (Has c) then negb satisfied else satisfied in
  match tooltip with
  | Some buffer =>
      if negb satisfied then
        let buffer := WriteString buffer prefix in
        let buffer := WriteString buffer (HasText (Has c)) in
        let buffer := WriteString buffer (i18n_Text " a contained weight which ") in
        let buffer := WriteString buffer (WeightCriteria_String (WeightCriteria_ c)) in
        (satisfied, Some buffer)
      else (satisfied, Some buffer)
  | None => (satisfied, None)
  end.

(** The domain check of this prerequisite, before [Has] is taken into
    account: the value of [satisfied] when the code reaches [if !c.Has]. *)
Definition variant_outcome (c : t) (entity : Entity) (exclude : any) : bool :=
  match exclude with
  | any_Equipment eqp =>
      if Container eqp
      then Matches (WeightCriteria_ c)
             (Weight_sub (ExtendedWeight eqp false (DefaultWeightUnits entity))
                         (AdjustedWeight eqp false (DefaultWeightUnits entity)))
      else true
  | any_other => false
  end.

(** "Not an equipment container": anything but an Equipment for which
    [Container()] holds. *)
Definition is_container (exclude : any) : bool :=
  match exclude with
  | any_Equipment eqp => Container eqp
  | any_other => false
  end.

(** [c.Clone(parent)]: the value the returned pointer points to.  The copy
    is a new object, [c] itself is not written to. *)
Definition Clone (c : t) (parent : option positive) : t :=
  let clone := c in
  let clone := mk parent (Type_ clone) (Has clone) (WeightCriteria_ clone) in
  clone.

Section Hashing.
(** What [binary.Write] emits for a [prereq.Type] and what
    [WeightCriteria.Hash] writes are decided outside this file. *)
Variable Type_bytes : PrereqType → list Byte.byte.
Variable WeightCriteria_bytes : WeightCriteria → list Byte.byte.

(** [binary.Write] emits one byte for a bool: 1 for true, 0 for false. *)
Definition bool_byte (b : bool) : Byte.byte := if b then Byte.x01 else Byte.x00.

(** [c.Hash(h)]: the hasher is the list of the bytes written to it; [None]
    is the nil receiver. *)
Definition Hash (c : option t) (h : list Byte.byte) : list Byte.byte :=
  match c with
  | None => h
  | Some c =>
      let h := h ++ Type_bytes (Type_ c) in
      let h := h ++ [bool_byte (Has c)] in
      h ++ WeightCriteria_bytes (WeightCriteria_ c)
  end.

End Hashing.

End WithModel.
End ContainedWeightPrereq.

(** ** model/criteria and model/gurps/weapon, as far as weapon_bonus.go uses them *)
Module criteria.

(** Modelled from the spec: package model/criteria is not among the source
    files.  Section 3 of the specification lists the comparison operators of a
    string criterion ([Is], [IsNot], [Contains], [StartsWith], [EndsWith],
    [Any]) and of a numeric one ([AtLeast], [AtMost], [Equals], [Any]); a
    criterion is an operator with a qualifier. *)
Inductive StringCompareType := Any | Is | IsNot | Contains | StartsWith | EndsWith.

#[global] Instance StringCompareType_eq_dec : EqDecision StringCompareType.
Proof. solve_decision. Defined.

Record String_ := mkString { Compare : StringCompareType; Qualifier : string }.

Inductive NumericCompareType := AnyNumber | Equals | AtLeast | AtMost.

Record Numeric := mkNumeric { NumericCompare : NumericCompareType; NumericQualifier : fxp.Int }.

End criteria.

Module weapon.

(** [weapon.SelectionType]: the three constants the code names, and every
    other value of the underlying type. *)
Inductive SelectionType :=
  | WithRequiredSkill
  | ThisWeapon
  | WithName
  | other (raw : Z).

End weapon.

(** ** WeaponBonus (package model/feature) *)
Module WeaponBonus.

(** ["\u0001"] *)
Definition ThisWeaponID : string := String (Ascii.ascii_of_nat 1) "".
Definition WeaponNamedIDPrefix : string := "weapon_named.".

Record LeveledAmount := mkLeveledAmount {
  Level : fxp.Int;
  Amount : fxp.Int;
  PerLevel : bool;
}.

Record t := mk {
  Type_ : string;
  Percent : bool;
  SelectionType : weapon.SelectionType;
  NameCriteria : criteria.String_;
  SpecializationCriteria : criteria.String_;
  RelativeLevelCriteria : criteria.Numeric;
  TagsCriteria : criteria.String_;
  LeveledAmount_ : LeveledAmount;
  owner : option string;
}.

(** What a call does: it returns a key, or [jot.Fatal] ends the process. *)
Inductive outcome :=
  | Returns (key : string)
  | Fatal.

Definition buildKey (w : t) (prefix : string) : string :=
  if bool_decide (criteria.Compare (NameCriteria w) = criteria.Is)
     && (bool_decide (criteria.Compare (SpecializationCriteria w) = criteria.Any)
         && bool_decide (criteria.Compare (TagsCriteria w) = criteria.Any))
  then (prefix +:+ "/") +:+ criteria.Qualifier (NameCriteria w)
  else prefix +:+ "*".

Definition FeatureMapKey {ops : fxp.Ops} {model : Model} (w : t) : outcome :=
  match SelectionType w with
  | weapon.WithRequiredSkill => Returns (buildKey w SkillNameID)
  | weapon.ThisWeapon => Returns ThisWeaponID
  | weapon.WithName => Returns (buildKey w WeaponNamedIDPrefix)
  | weapon.other _ => Fatal
  end.

Section Nameables.
(** [nameables.Apply] belongs to a package this file imports. *)
Variable nameables_Apply : string → gmap string string → string.

Definition set_NameQualifier (w : t) (q : string) : t :=
  mk (Type_ w) (Percent w) (SelectionType w)
     (criteria.mkString (criteria.Compare (NameCriteria w)) q)
     (SpecializationCriteria w) (RelativeLevelCriteria w) (TagsCriteria w)
     (LeveledAmount_ w) (owner w).

Definition set_SpecializationQualifier (w : t) (q : string) : t :=
  mk (Type_ w) (Percent w) (SelectionType w) (NameCriteria w)
     (criteria.mkString (criteria.Compare (SpecializationCriteria w)) q)
     (RelativeLevelCriteria w) (TagsCriteria w) (LeveledAmount_ w) (owner w).

Definition set_TagsQualifier (w : t) (q : string) : t :=
  mk (Type_ w) (Percent w) (SelectionType w) (NameCriteria w)
     (SpecializationCriteria w) (RelativeLevelCriteria w)
     (criteria.mkString (criteria.Compare (TagsCriteria w)) q)
     (LeveledAmount_ w) (owner w).

Definition is_ThisWeapon (sel : weapon.SelectionType) : bool :=
  match sel with
  | weapon.ThisWeapon => true
  | _ => false
  end.

(** [w.ApplyNameableKeys(m)]: the value of [w] when the call returns. *)
Definition ApplyNameableKeys (w : t) (m : gmap string string) : t :=
  let w := set_SpecializationQualifier w
             (nameables_Apply (criteria.Qualifier (SpecializationCriteria w)) m) in
  if negb (is_ThisWeapon (SelectionType w)) then
    let w := set_NameQualifier w
               (nameables_Apply (criteria.Qualifier (NameCriteria w)) m) in
    let w := set_SpecializationQualifier w
               (nameables_Apply (criteria.Qualifier (SpecializationCriteria w)) m) in
    let w := set_TagsQualifier w
               (nameables_Apply (criteria.Qualifier (TagsCriteria w)) m) in
    w
  else w.

End Nameables.

End WeaponBonus.

(** ** A concrete program state to run the code on *)
Module Sample.

(** Modelled from the spec: package model/fxp is not among the source files.
    The specification speaks of levels as numbers with a [Min] sentinel, of
    [floor(level / 2) + 3 + bonus], of a cap of 20 and of halving and adding 5
    (section 4.5).  Levels are held as fixed-point numbers with four decimal
    digits (the integer 10000 stands for 1), [Div] and [Trunc] round down,
    addition is exact, [Min] is the least 64-bit integer and a value is
    written as 8 bytes. *)
Definition spec_fxp : fxp.Ops := {|
  fxp.Min := - 2 ^ 63;
  fxp.Two := 20000;
  fxp.Three := 30000;
  fxp.Five := 50000;
  fxp.Twenty := 200000;
  fxp.add := Z.add;
  fxp.Div := λ x y, (x * 10000 / y)%Z;
  fxp.Trunc := λ x, (x / 10000 * 10000)%Z;
  fxp.Int_Min := Z.min;
  fxp.From := λ n, (n * 10000)%Z;
  fxp.Size := 8;
|}.

Record skill := mkSkill {
  skill_name : string;
  skill_specialization : string;
  skill_points : Z;
  cached_level : Z;
  computed_level : Z;
}.

Record entity := mkEntity {
  parry_bonus : Z;
  block_bonus : Z;
  half_stat_defaults : bool;
  dodge : Z;
  attribute : string → Z;
  skills : list skill;
}.

Record equipment := mkEquipment {
  container : bool;
  extended_weight : Z;
  adjusted_weight : Z;
}.

Definition skill_named (e : entity) (name specialization : string)
    (requirePoints : bool) (excludes : gmap string bool) : list skill :=
  filter (λ sk, skill_name sk = name ∧ skill_specialization sk = specialization
                ∧ (requirePoints = true → 0 < skill_points sk)%Z) (skills e).

(** [strings.ToLower] and [strings.TrimSpace] on ASCII text. *)
Definition lower (c : Ascii.ascii) : Ascii.ascii :=
  let n := Ascii.nat_of_ascii c in
  if ((65 <=? n) && (n <=? 90))%nat then Ascii.ascii_of_nat (n + 32) else c.

Fixpoint to_lower (s : string) : string :=
  match s with
  | EmptyString => ""
  | String c s' => String (lower c) (to_lower s')
  end.

Definition is_space (c : Ascii.ascii) : bool :=
  let n := Ascii.nat_of_ascii c in
  ((n =? 32) || ((9 <=? n) && (n <=? 13)))%nat.

Fixpoint trim_left (s : string) : string :=
  match s with
  | EmptyString => ""
  | String c s' => if is_space c then trim_left s' else s
  end.

Fixpoint trim_right (s : string) : string :=
  match s with
  | EmptyString => ""
  | String c s' =>
      match trim_right s' with
      | EmptyString => if is_space c then "" else String c ""
      | r => String c r
      end
  end.

Definition trim_space (s : string) : string := trim_right (trim_left s).

Definition ids_differ : NoDup ["dodge"; "parry"; "block"; "skill"] :=
  @bool_decide_unpack (NoDup ["dodge"; "parry"; "block"; "skill"]) _ I.

(** Modelled from the spec: the default-type identifiers, [HasText] and the
    entity are not among the source files.  The identifiers are the tags of
    section 4.5 in lower case, [HasText] gives the two phrases of section
    4.4, [i18n.Text] is the identity, a weight criterion is "at most". *)
Definition model : @Model spec_fxp := {|
  Entity := entity;
  Skill := skill;
  Equipment := equipment;
  WeightUnits := unit;
  Weight := Z;
  WeightCriteria := Z;
  PrereqType := unit;
  SkillID := "skill";
  ParryID := "parry";
  BlockID := "block";
  DodgeID := "dodge";
  DefaultTypeIDs_differ := ids_differ;
  SkillNameID := "skill.name";
  ToLower := to_lower;
  TrimSpace := trim_space;
  i18n_Text := λ s, s;
  HasText := λ has, if has then "has" else "does not have";
  ParryBonus := parry_bonus;
  BlockBonus := block_bonus;
  UseHalfStatDefaults := half_stat_defaults;
  DefaultWeightUnits := λ _, tt;
  EncumbranceLevel := λ _ _, 0%Z;
  Dodge := λ e _, dodge e;
  ResolveAttributeCurrent := attribute;
  SkillNamed := skill_named;
  LevelData_Level := cached_level;
  CalculateLevel_Level := λ sk _, computed_level sk;
  Container := container;
  ExtendedWeight := λ eqp _ _, extended_weight eqp;
  AdjustedWeight := λ eqp _ _, adjusted_weight eqp;
  Weight_sub := Z.sub;
  Matches := λ q w, (w <=? q)%Z;
  WeightCriteria_String := λ _, "is at most 5 lb";
|}.

(** An entity with one skill, Broadsword at level [level], whose cached
    level is up to date. *)
Definition fencer (level bonus : Z) : entity :=
  mkEntity bonus bonus false 8 (λ _, 100000%Z)
    [mkSkill "Broadsword" "" 40000 level level].

Definition parry_default (modifier : Z) : SkillDefault.t :=
  SkillDefault.mk "parry" "Broadsword" "" modifier 0 0 0.

Definition block_default (modifier : Z) : SkillDefault.t :=
  SkillDefault.mk "block" "Broadsword" "" modifier 0 0 0.

(** An entity with one skill of the given name, whose cached level is up to
    date. *)
Definition skilled (name : string) (level : Z) : entity :=
  mkEntity 0 0 false 8 (λ _, 100000%Z) [mkSkill name "" 40000 level level].

(** The map [{"a": "1", "b": "2"}] and the two orders a loop can visit it in,
    taken by both loops of a call. *)
Definition ab_map : gmap string string := <[ "a" := "1" ]> {[ "b" := "2" ]}.

Definition a_then_b : SkillDefault.Replacements :=
  SkillDefault.mkReplacements [("a", "1"); ("b", "2")] [("a", "1"); ("b", "2")].

Definition b_then_a : SkillDefault.Replacements :=
  SkillDefault.mkReplacements [("b", "2"); ("a", "1")] [("b", "2"); ("a", "1")].

(** A bonus for the weapons named Broadsword, with the given criterion on
    their specialization. *)
Definition broadsword_bonus (selection : weapon.SelectionType)
    (specialization : criteria.String_) : WeaponBonus.t :=
  WeaponBonus.mk "weapon_bonus" false selection
    (criteria.mkString criteria.Is "Broadsword") specialization
    (criteria.mkNumeric criteria.AtLeast 0) (criteria.mkString criteria.Any "")
    (WeaponBonus.mkLeveledAmount 0 10000 false) None.

End Sample.

(** * Properties *)

Example Count_ex : Strings.Count "@ST@ is strong" "@" = 2.
Proof. reflexivity. Qed.

Example Split_ex : Strings.Split "a@@b@" "@" = ["a"; ""; "b"; ""].
Proof. reflexivity. Qed.

Example ReplaceAll_ex : Strings.ReplaceAll "@p@p@p@" "@p@" "x" = "xpx".
Proof. reflexivity. Qed.

Example ExtractNameables_ex :
  ExtractNameables "@ST@ is strong" ∅ ∅ = {[ "ST" := "ST" ]}.
Proof. vm_compute. reflexivity. Qed.

Example ApplyNameables_ex :
  ApplyNameables "@ST@ is strong" [("ST", "14")] = "14 is strong".
Proof. reflexivity. Qed.

(** ** Nameables *)

Arguments String.prefix : simpl never.

Lemma Split_length (s sep : string) :
  length (Strings.Split s sep) = S (Strings.Count s sep).
Proof.
  unfold Strings.Split, Strings.Count.
  generalize 0 as skip. generalize "" at 1 as cur.
  induction s as [|c s IH]; intros cur skip; simpl; [done|].
  destruct skip as [|k]; [|apply IH].
  destruct (String.prefix sep (String c s)); simpl; by rewrite IH.
Qed.

Lemma extract_range_insert (count i : nat) (one : string) (existing m : gmap string string) :
  match existing !! one with
  | Some value => <[one := value]> m
  | None => <[one := one]> m
  end = <[one := default one (existing !! one)]> m.
Proof. by destruct (existing !! one). Qed.

(** A key that already has its replacement keeps it through the loop. *)
Lemma extract_range_keeps count parts (existing : gmap string string) (key : string) :
  ∀ i (m : gmap string string),
    m !! key = Some (default key (existing !! key)) →
    extract_range count i parts existing m !! key = Some (default key (existing !! key)).
Proof.
  induction parts as [|one rest IH]; intros i m Hm; cbn [extract_range]; [done|].
  apply IH. destruct ((i mod 2 =? 1)%nat && (i <? count)%nat); [|done].
  rewrite (extract_range_insert count i).
  destruct (decide (one = key)) as [->|Hne].
  - by rewrite lookup_insert_eq.
  - by rewrite lookup_insert_ne.
Qed.

Lemma extract_range_hit count parts (existing : gmap string string) (key : string) :
  ∀ i (m : gmap string string),
    (∃ j, parts !! j = Some key ∧ (i + j) mod 2 = 1 ∧ i + j < count) →
    extract_range count i parts existing m !! key = Some (default key (existing !! key)).
Proof.
  induction parts as [|one rest IH]; intros i m (j & Hj & Hodd & Hlt).
  - by rewrite lookup_nil in Hj.
  - cbn [extract_range]. destruct j as [|j].
    + simpl in Hj. injection Hj as ->.
      rewrite Nat.add_0_r in Hodd, Hlt.
      apply Nat.eqb_eq in Hodd. apply Nat.ltb_lt in Hlt. rewrite Hodd, Hlt.
      cbn [andb].
      apply extract_range_keeps.
      rewrite (extract_range_insert count i). by rewrite lookup_insert_eq.
    + apply IH. exists j. simpl in Hj.
      replace (S i + j) with (i + S j) by lia. done.
Qed.

Lemma extract_range_miss count parts (existing : gmap string string) (key : string) :
  ∀ i (m : gmap string string),
    ¬ (∃ j, parts !! j = Some key ∧ (i + j) mod 2 = 1 ∧ i + j < count) →
    extract_range count i parts existing m !! key = m !! key.
Proof.
  induction parts as [|one rest IH]; intros i m Hno; cbn [extract_range]; [done|].
  rewrite IH.
  - destruct ((i mod 2 =? 1)%nat && (i <? count)%nat) eqn:Hc; [|done].
    rewrite (extract_range_insert count i).
    apply andb_true_iff in Hc as [Hodd Hlt].
    apply Nat.eqb_eq in Hodd. apply Nat.ltb_lt in Hlt.
    apply lookup_insert_ne. intros ->. apply Hno. exists 0.
    rewrite Nat.add_0_r. done.
  - intros (j & Hj & Hodd & Hlt). apply Hno. exists (S j).
    replace (i + S j) with (S i + j) by lia. done.
Qed.

(** C4. [ExtractNameables] leaves [m] as it is when the text holds at most one
    ["@"].  With more than one, the keys it sets are exactly the segments of
    the split text at an odd index below the number of markers; each is
    mapped to its value in [existing] if it has one and to itself otherwise,
    and every other key of [m] keeps its value. *)
Theorem ExtractNameables_sets_odd_segments (str : string) (m existing : gmap string string) :
  ((Strings.Count str "@" ≤ 1)%nat → ExtractNameables str m existing = m) ∧
  ((1 < Strings.Count str "@")%nat →
   ∀ key,
     (candidate_key str key →
      ExtractNameables str m existing !! key = Some (default key (existing !! key))) ∧
     (¬ candidate_key str key →
      ExtractNameables str m existing !! key = m !! key)).
Proof.
  unfold ExtractNameables, candidate_key. split.
  - intros Hle. destruct (Nat.ltb_spec 1 (Strings.Count str "@")); [lia|done].
  - intros Hlt key. destruct (Nat.ltb_spec 1 (Strings.Count str "@")); [|lia].
    split; intros Hc.
    + apply extract_range_hit. destruct Hc as (i & ? & ? & ?). by exists i.
    + apply extract_range_miss. intros (i & ? & ? & ?). apply Hc. by exists i.
Qed.

(** The last segment of the split is never taken: its index is the number of
    markers. *)
Lemma candidate_key_before_last (str key : string) :
  candidate_key str key →
  ∃ i, Strings.Split str "@" !! i = Some key ∧ S i < length (Strings.Split str "@").
Proof.
  intros (i & Hi & _ & Hlt). exists i. split; [done|]. rewrite Split_length. lia.
Qed.

Lemma count_from_zero_replace (old new s : string) :
  Strings.count_from 0 old s = 0 → Strings.replace_from 0 old new s = s.
Proof.
  induction s as [|c s IH]; simpl; [done|].
  destruct (String.prefix old (String c s)); [done|].
  intros Hc. by rewrite IH.
Qed.

(** Replacing a text that does not occur changes nothing. *)
Lemma ReplaceAll_absent (s old new : string) :
  Strings.Count s old = 0 → Strings.ReplaceAll s old new = s.
Proof. apply count_from_zero_replace. Qed.

Lemma replace_absent_tokens (s : string) (order : list (string * string)) :
  (∀ kv, kv ∈ order → Strings.Count s ("@" +:+ kv.1 +:+ "@") = 0) →
  foldl (λ str kv, Strings.ReplaceAll str ("@" +:+ kv.1 +:+ "@") kv.2) s order = s.
Proof.
  induction order as [|kv order IH]; intros Hno; simpl; [done|].
  rewrite ReplaceAll_absent by (apply Hno; left).
  apply IH. intros kv' Hin. apply Hno. by right.
Qed.

Lemma iteration_of_singleton (k v : string) (order : list (string * string)) :
  iteration_of {[ k := v ]} order → order = [(k, v)].
Proof.
  unfold iteration_of. rewrite map_to_list_singleton.
  intros Hp. symmetry in Hp. by apply Permutation_singleton_l in Hp.
Qed.

(** C8, as the specification states it, fails: with the single replacement
    of ["p"] by the empty text (no value contains the marker), one pass over
    ["@@p@p@"] leaves ["@p@"], which a second pass empties.  The map has one
    entry, so this holds for every order of iteration. *)
Lemma ApplyNameables_twice_differs :
  marker_free_values {[ "p" := "" ]} ∧
  ∀ o1 o2,
    iteration_of {[ "p" := "" ]} o1 → iteration_of {[ "p" := "" ]} o2 →
    ApplyNameables "@@p@p@" o1 = "@p@" ∧
    ApplyNameables (ApplyNameables "@@p@p@" o1) o2 = "" ∧
    ApplyNameables (ApplyNameables "@@p@p@" o1) o2 ≠ ApplyNameables "@@p@p@" o1.
Proof.
  split.
  - intros k v [_ <-]%lookup_singleton_Some. reflexivity.
  - intros o1 o2 ->%iteration_of_singleton ->%iteration_of_singleton.
    repeat split; [reflexivity..|discriminate].
Qed.

(** The same happens with the identity replacement that [ExtractNameables]
    gives a key by default. *)
Example ApplyNameables_twice_differs_identity :
  ApplyNameables "@@p@@" [("p", "p")] = "@p@" ∧
  ApplyNameables (ApplyNameables "@@p@@" [("p", "p")]) [("p", "p")] = "p".
Proof. split; reflexivity. Qed.

(** C8, amended.  Applying the replacements a second time changes nothing
    whenever the text left by the first pass holds no token ["@key@"] of a
    key of the map, whatever the order in which each pass visits the map. *)
Theorem ApplyNameables_idempotent_no_token_left
    (str : string) (m : gmap string string) (o1 o2 : list (string * string)) :
  iteration_of m o1 → iteration_of m o2 →
  (∀ k v, m !! k = Some v →
          Strings.Count (ApplyNameables str o1) ("@" +:+ k +:+ "@") = 0) →
  ApplyNameables (ApplyNameables str o1) o2 = ApplyNameables str o1.
Proof.
  intros _ Ho2 Hno. unfold ApplyNameables at 1.
  destruct (1 <? Strings.Count (ApplyNameables str o1) "@")%nat; [|done].
  apply replace_absent_tokens. intros [k v] Hin. simpl.
  apply (Hno k v). apply elem_of_map_to_list.
  unfold iteration_of in Ho2. by rewrite <- Ho2.
Qed.

Lemma ApplyNameables_idempotent_no_token_left_witness :
  ApplyNameables (ApplyNameables "@ST@ is strong" [("ST", "14")]) [("ST", "14")]
  = ApplyNameables "@ST@ is strong" [("ST", "14")].
Proof.
  apply (ApplyNameables_idempotent_no_token_left _ {[ "ST" := "14" ]}).
  - unfold iteration_of. rewrite map_to_list_singleton. reflexivity.
  - unfold iteration_of. rewrite map_to_list_singleton. reflexivity.
  - intros k v [<- _]%lookup_singleton_Some. reflexivity.
Defined.

(** ** Strings and bytes *)

Lemma string_app_cons (c : Ascii.ascii) (s1 s2 : string) :
  String c s1 +:+ s2 = String c (s1 +:+ s2).
Proof. reflexivity. Qed.

Lemma string_app_assoc (s1 s2 s3 : string) :
  (s1 +:+ s2) +:+ s3 = s1 +:+ (s2 +:+ s3).
Proof.
  induction s1 as [|c s1 IH]; [done|].
  rewrite !string_app_cons. by rewrite IH.
Qed.

Lemma bytes_of_string_app (s1 s2 : string) :
  bytes_of_string (s1 +:+ s2) = bytes_of_string s1 ++ bytes_of_string s2.
Proof.
  unfold bytes_of_string. induction s1 as [|c s1 IH]; [done|].
  rewrite string_app_cons. cbn [String.list_ascii_of_string fmap list_fmap app].
  f_equal. apply IH.
Qed.

Lemma bytes_of_string_inj (s1 s2 : string) :
  bytes_of_string s1 = bytes_of_string s2 → s1 = s2.
Proof.
  unfold bytes_of_string. revert s2.
  induction s1 as [|c1 s1 IH]; intros [|c2 s2] Heq; try done.
  cbn [String.list_ascii_of_string fmap list_fmap] in Heq.
  injection Heq as Hc Hs. f_equal; [|by apply IH].
  rewrite <- (Ascii.ascii_of_byte_of_ascii c1), Hc.
  apply Ascii.ascii_of_byte_of_ascii.
Qed.

Module binary_facts.

Lemma to_N_byte_of_Z (x : Z) :
  Z.of_N (Byte.to_N (binary.byte_of_Z x)) = (x mod 256)%Z.
Proof.
  unfold binary.byte_of_Z.
  pose proof (Z.mod_pos_bound x 256 eq_refl) as Hb.
  destruct (Byte.of_N (Z.to_N (x mod 256))) as [b|] eqn:Hof.
  - apply Byte.to_of_N in Hof. rewrite Hof. lia.
  - apply Byte.of_N_None_iff in Hof. lia.
Qed.

Lemma LittleEndian_length (size : nat) (x : Z) :
  length (binary.LittleEndian size x) = size.
Proof. revert x. induction size as [|n IH]; intros x; simpl; [done|]. by rewrite IH. Qed.

(** The bytes written stand for the value modulo [256 ^ size]. *)
Lemma le_value_LittleEndian (size : nat) (x : Z) :
  binary.le_value (binary.LittleEndian size x) = (x mod 256 ^ Z.of_nat size)%Z.
Proof.
  revert x. induction size as [|n IH]; intros x.
  - simpl. by rewrite Z.mod_1_r.
  - cbn [binary.LittleEndian binary.le_value].
    rewrite to_N_byte_of_Z, IH.
    replace (256 ^ Z.of_nat (S n))%Z with (256 * 256 ^ Z.of_nat n)%Z
      by (rewrite Nat2Z.inj_succ, Z.pow_succ_r by lia; done).
    rewrite Z.rem_mul_r by lia. done.
Qed.

Lemma byte_of_Z_mod (x y : Z) :
  (x mod 256 = y mod 256)%Z → binary.byte_of_Z x = binary.byte_of_Z y.
Proof. unfold binary.byte_of_Z. by intros ->. Qed.

Lemma LittleEndian_congruent (size : nat) (x y : Z) :
  (x mod 256 ^ Z.of_nat size = y mod 256 ^ Z.of_nat size)%Z →
  binary.LittleEndian size x = binary.LittleEndian size y.
Proof.
  revert x y. induction size as [|n IH]; intros x y Heq; [done|].
  replace (256 ^ Z.of_nat (S n))%Z with (256 * 256 ^ Z.of_nat n)%Z in Heq
    by (rewrite Nat2Z.inj_succ, Z.pow_succ_r by lia; done).
  rewrite !Z.rem_mul_r in Heq by lia.
  pose proof (Z.mod_pos_bound x 256 eq_refl).
  pose proof (Z.mod_pos_bound y 256 eq_refl).
  cbn [binary.LittleEndian]. f_equal.
  - apply byte_of_Z_mod. lia.
  - apply IH. lia.
Qed.

(** Two values are written as the same bytes exactly when they agree modulo
    [256 ^ size]. *)
Lemma LittleEndian_eq_iff (size : nat) (x y : Z) :
  binary.LittleEndian size x = binary.LittleEndian size y ↔
  (x mod 256 ^ Z.of_nat size = y mod 256 ^ Z.of_nat size)%Z.
Proof.
  split; [|apply LittleEndian_congruent].
  intros Heq. by rewrite <- !le_value_LittleEndian, Heq.
Qed.

(** Two integers of the signed range of a type agree modulo the size of the
    type only when they are equal. *)
Lemma signed_range_mod_inj (M x y : Z) :
  (- M ≤ 2 * x < M)%Z → (- M ≤ 2 * y < M)%Z →
  (x mod M = y mod M)%Z → x = y.
Proof.
  intros Hx Hy Heq.
  assert (0 < M)%Z as HM by lia.
  pose proof (Z.div_mod x M ltac:(lia)) as Hdx.
  pose proof (Z.div_mod y M ltac:(lia)) as Hdy.
  assert (x - y = M * (x / M - y / M))%Z as Hk by lia.
  assert (x / M - y / M = 0)%Z by nia. lia.
Qed.

End binary_facts.

(** ** SkillDefault: hashing and cloning *)

Lemma string_app_inv_tail (s1 s2 s : string) : s1 +:+ s = s2 +:+ s → s1 = s2.
Proof.
  intros Heq. apply bytes_of_string_inj.
  apply (f_equal bytes_of_string) in Heq. rewrite !bytes_of_string_app in Heq.
  by apply app_inv_tail in Heq.
Qed.

(** The bytes [Hash] adds to the hasher are those of the three text fields,
    one after the other with nothing in between, and then the modifier. *)
Lemma Hash_unfold {ops : fxp.Ops} (s : SkillDefault.t) (h : list Byte.byte) :
  SkillDefault.Hash s h =
  h ++ bytes_of_string (SkillDefault.DefaultType s +:+ SkillDefault.Name s
                          +:+ SkillDefault.Specialization s)
    ++ binary.LittleEndian fxp.Size (SkillDefault.Modifier s).
Proof.
  unfold SkillDefault.Hash. rewrite !bytes_of_string_app. by rewrite <- !app_assoc.
Qed.

Lemma Hash_eq_iff {ops : fxp.Ops} (a b : SkillDefault.t) (h : list Byte.byte) :
  SkillDefault.Hash a h = SkillDefault.Hash b h ↔
  SkillDefault.DefaultType a +:+ SkillDefault.Name a +:+ SkillDefault.Specialization a
  = SkillDefault.DefaultType b +:+ SkillDefault.Name b +:+ SkillDefault.Specialization b
  ∧ (SkillDefault.Modifier a mod 256 ^ Z.of_nat fxp.Size
     = SkillDefault.Modifier b mod 256 ^ Z.of_nat fxp.Size)%Z.
Proof.
  rewrite !Hash_unfold. rewrite <- binary_facts.LittleEndian_eq_iff. split.
  - intros Heq%app_inv_head.
    apply app_inj_2 in Heq as [Hs Hm];
      [|by rewrite !binary_facts.LittleEndian_length].
    split; [by apply bytes_of_string_inj|done].
  - by intros [-> ->].
Qed.

(** C2, as stated, fails in its second half: the text fields are written with
    nothing between them, so moving a letter from the end of [DefaultType] to
    the start of [Name] changes two source fields and not one byte of what is
    written, whatever the hasher held and however an [fxp.Int] is written. *)
Lemma Hash_same_bytes_for_different_sources :
  SkillDefault.DefaultType (SkillDefault.mk "ab" "" "" 0 0 0 0)
  ≠ SkillDefault.DefaultType (SkillDefault.mk "a" "b" "" 0 0 0 0)
  ∧ SkillDefault.Name (SkillDefault.mk "ab" "" "" 0 0 0 0)
    ≠ SkillDefault.Name (SkillDefault.mk "a" "b" "" 0 0 0 0)
  ∧ ∀ (ops : fxp.Ops) (h : list Byte.byte),
      SkillDefault.Hash (SkillDefault.mk "ab" "" "" 0 0 0 0) h
      = SkillDefault.Hash (SkillDefault.mk "a" "b" "" 0 0 0 0) h.
Proof.
  split; [discriminate|split; [discriminate|]].
  intros ops h. rewrite !Hash_unfold. reflexivity.
Qed.

(** C2, amended.  Two SkillDefault values with the same [DefaultType], [Name],
    [Specialization] and [Modifier] write the same bytes, whatever their
    [Level], [AdjLevel] and [Points].  The bytes written are the same exactly
    when the three text fields give the same text once joined and the
    modifiers agree modulo [256 ^ Size]; so two values that differ in one
    text field only, or whose modifiers differ modulo [256 ^ Size] (as any
    two different integers of [Size] bytes do), write different bytes. *)
Theorem Hash_source_fields {ops : fxp.Ops} (a b : SkillDefault.t) (h : list Byte.byte) :
  (SkillDefault.DefaultType a = SkillDefault.DefaultType b →
   SkillDefault.Name a = SkillDefault.Name b →
   SkillDefault.Specialization a = SkillDefault.Specialization b →
   SkillDefault.Modifier a = SkillDefault.Modifier b →
   SkillDefault.Hash a h = SkillDefault.Hash b h)
  ∧ (SkillDefault.Hash a h = SkillDefault.Hash b h ↔
     SkillDefault.DefaultType a +:+ SkillDefault.Name a +:+ SkillDefault.Specialization a
     = SkillDefault.DefaultType b +:+ SkillDefault.Name b +:+ SkillDefault.Specialization b
     ∧ (SkillDefault.Modifier a mod 256 ^ Z.of_nat fxp.Size
        = SkillDefault.Modifier b mod 256 ^ Z.of_nat fxp.Size)%Z)
  ∧ (SkillDefault.DefaultType a ≠ SkillDefault.DefaultType b →
     SkillDefault.Name a = SkillDefault.Name b →
     SkillDefault.Specialization a = SkillDefault.Specialization b →
     SkillDefault.Hash a h ≠ SkillDefault.Hash b h)
  ∧ (SkillDefault.DefaultType a = SkillDefault.DefaultType b →
     SkillDefault.Name a ≠ SkillDefault.Name b →
     SkillDefault.Specialization a = SkillDefault.Specialization b →
     SkillDefault.Hash a h ≠ SkillDefault.Hash b h)
  ∧ (SkillDefault.DefaultType a = SkillDefault.DefaultType b →
     SkillDefault.Name a = SkillDefault.Name b →
     SkillDefault.Specialization a ≠ SkillDefault.Specialization b →
     SkillDefault.Hash a h ≠ SkillDefault.Hash b h)
  ∧ ((SkillDefault.Modifier a mod 256 ^ Z.of_nat fxp.Size
      ≠ SkillDefault.Modifier b mod 256 ^ Z.of_nat fxp.Size)%Z →
     SkillDefault.Hash a h ≠ SkillDefault.Hash b h)
  ∧ ((- 256 ^ Z.of_nat fxp.Size ≤ 2 * SkillDefault.Modifier a < 256 ^ Z.of_nat fxp.Size)%Z →
     (- 256 ^ Z.of_nat fxp.Size ≤ 2 * SkillDefault.Modifier b < 256 ^ Z.of_nat fxp.Size)%Z →
     SkillDefault.Modifier a ≠ SkillDefault.Modifier b →
     SkillDefault.Hash a h ≠ SkillDefault.Hash b h).
Proof.
  split; [|split; [apply Hash_eq_iff|]].
  { intros Ht Hn Hs Hm. unfold SkillDefault.Hash. by rewrite Ht, Hn, Hs, Hm. }
  repeat split.
  - intros Hne Hn Hs [Heq _]%Hash_eq_iff. apply Hne.
    rewrite Hn, Hs in Heq. by apply string_app_inv_tail in Heq.
  - intros Ht Hne Hs [Heq _]%Hash_eq_iff. apply Hne.
    rewrite Ht, Hs in Heq. apply (inj _) in Heq.
    by apply string_app_inv_tail in Heq.
  - intros Ht Hn Hne [Heq _]%Hash_eq_iff. apply Hne.
    rewrite Ht, Hn in Heq. by do 2 apply (inj _) in Heq.
  - intros Hne [_ Heq]%Hash_eq_iff. by apply Hne.
  - intros Ha Hb Hne [_ Heq]%Hash_eq_iff. apply Hne.
    by apply (binary_facts.signed_range_mod_inj (256 ^ Z.of_nat fxp.Size)).
Qed.

(** Run on two values that differ in their computed fields only, and on two
    that differ in [Name] only. *)
Lemma Hash_source_fields_witness :
  SkillDefault.Hash (ops := Sample.spec_fxp) (SkillDefault.mk "parry" "Broadsword" "" 10000 90000 80000 40000) []
  = SkillDefault.Hash (ops := Sample.spec_fxp) (SkillDefault.mk "parry" "Broadsword" "" 10000 0 0 0) []
  ∧ SkillDefault.Hash (ops := Sample.spec_fxp) (SkillDefault.mk "parry" "Broadsword" "" 10000 0 0 0) []
    ≠ SkillDefault.Hash (ops := Sample.spec_fxp) (SkillDefault.mk "parry" "Shield" "" 10000 0 0 0) [].
Proof.
  split.
  - pose proof (Hash_source_fields (ops := Sample.spec_fxp)
                  (SkillDefault.mk "parry" "Broadsword" "" 10000 90000 80000 40000)
                  (SkillDefault.mk "parry" "Broadsword" "" 10000 0 0 0) [])
      as (Hsame & _).
    apply Hsame; reflexivity.
  - pose proof (Hash_source_fields (ops := Sample.spec_fxp)
                  (SkillDefault.mk "parry" "Broadsword" "" 10000 0 0 0)
                  (SkillDefault.mk "parry" "Shield" "" 10000 0 0 0) [])
      as (_ & _ & _ & Hname & _).
    apply Hname; [reflexivity|discriminate|reflexivity].
Defined.

(** C9. [CloneWithoutLevelOrPoints] returns the address of a new
    SkillDefault (one the store did not hold) whose [Level], [AdjLevel] and
    [Points] are zero and whose four other fields are those of [s]; the value
    at [s], and at every other address the store held, is what it was. *)
Theorem CloneWithoutLevelOrPoints_copies
    (σ : gmap positive SkillDefault.t) (s : positive) (v : SkillDefault.t) :
  σ !! s = Some v →
  ∃ (p : positive) (σ' : gmap positive SkillDefault.t),
    SkillDefault.CloneWithoutLevelOrPoints s σ = Some (p, σ')
    ∧ σ !! p = None
    ∧ p ≠ s
    ∧ σ' !! p = Some (SkillDefault.mk (SkillDefault.DefaultType v) (SkillDefault.Name v)
                        (SkillDefault.Specialization v) (SkillDefault.Modifier v) 0 0 0)
    ∧ σ' !! s = Some v
    ∧ ∀ q, q ≠ p → σ' !! q = σ !! q.
Proof.
  intros Hs. unfold SkillDefault.CloneWithoutLevelOrPoints. rewrite Hs.
  set (p := fresh (dom σ)).
  assert (σ !! p = None) as Hp by (apply not_elem_of_dom, is_fresh).
  assert (p ≠ s) as Hne by congruence.
  eexists _, _. split; [reflexivity|]. split; [done|]. split; [done|].
  split; [by rewrite lookup_insert_eq|].
  split; [by rewrite lookup_insert_ne|].
  intros q Hq. by rewrite lookup_insert_ne.
Qed.

Lemma CloneWithoutLevelOrPoints_copies_witness :
  ∃ (p : positive) (σ' : gmap positive SkillDefault.t),
    SkillDefault.CloneWithoutLevelOrPoints 1
      {[ 1%positive := SkillDefault.mk "parry" "Broadsword" "" 10000 90000 80000 40000 ]}
    = Some (p, σ')
    ∧ ({[ 1%positive := SkillDefault.mk "parry" "Broadsword" "" 10000 90000 80000 40000 ]}
         : gmap positive SkillDefault.t) !! p = None
    ∧ p ≠ 1%positive
    ∧ σ' !! p = Some (SkillDefault.mk "parry" "Broadsword" "" 10000 0 0 0)
    ∧ σ' !! 1%positive = Some (SkillDefault.mk "parry" "Broadsword" "" 10000 90000 80000 40000)
    ∧ ∀ q, q ≠ p →
        σ' !! q
        = ({[ 1%positive := SkillDefault.mk "parry" "Broadsword" "" 10000 90000 80000 40000 ]}
             : gmap positive SkillDefault.t) !! q.
Proof.
  apply (CloneWithoutLevelOrPoints_copies _ 1
           (SkillDefault.mk "parry" "Broadsword" "" 10000 90000 80000 40000)).
  reflexivity.
Defined.

(** ** SkillDefault: level resolution *)

Section SkillLevelFacts.
Context {ops : fxp.Ops} {model : Model}.

Lemma DefaultTypeIDs_ne :
  DodgeID ≠ ParryID ∧ DodgeID ≠ BlockID ∧ DodgeID ≠ SkillID
  ∧ ParryID ≠ BlockID ∧ ParryID ≠ SkillID ∧ BlockID ≠ SkillID.
Proof.
  pose proof DefaultTypeIDs_differ as Hd.
  rewrite !NoDup_cons, !not_elem_of_cons in Hd.
  destruct Hd as ((? & ? & ? & _) & (? & ? & _) & (? & _) & _). done.
Qed.

Lemma best_range_cached (excludes : gmap string bool) (skills : list Skill) :
  (∀ sk, sk ∈ skills → LevelData_Level sk = CalculateLevel_Level sk excludes) →
  ∀ best, SkillDefault.best_range excludes skills best
          = SkillDefault.bestFast_range skills best.
Proof.
  induction skills as [|sk rest IH]; intros Hc best; simpl; [done|].
  rewrite IH by (intros sk' Hin; apply Hc; by right).
  rewrite <- (Hc sk) by left.
  by destruct (best <? LevelData_Level sk)%Z.
Qed.

(** With no candidate the running maximum stays at the sentinel. *)
Lemma best_no_skill (s : SkillDefault.t) (entity : Entity)
    (replacements : SkillDefault.Replacements) (requirePoints : bool)
    (excludes : gmap string bool) :
  SkillNamed entity (SkillDefault.NameWithReplacements s replacements)
    (SkillDefault.SpecializationWithReplacements s replacements) requirePoints excludes = [] →
  SkillDefault.best s entity replacements requirePoints excludes = fxp.Min.
Proof. unfold SkillDefault.best. by intros ->. Qed.

Lemma finalLevel_Min (s : SkillDefault.t) : SkillDefault.finalLevel s fxp.Min = fxp.Min.
Proof. unfold SkillDefault.finalLevel. by rewrite bool_decide_false by auto. Qed.

Lemma finalLevel_defined (s : SkillDefault.t) (level : fxp.Int) :
  level ≠ fxp.Min →
  SkillDefault.finalLevel s level = fxp.add level (SkillDefault.Modifier s).
Proof. intros Hne. unfold SkillDefault.finalLevel. by rewrite bool_decide_true. Qed.

End SkillLevelFacts.

Lemma ab_map_orders :
  SkillDefault.Replacements_of Sample.ab_map Sample.a_then_b
  ∧ SkillDefault.Replacements_of Sample.ab_map Sample.b_then_a.
Proof.
  assert (iteration_of Sample.ab_map [("a", "1"); ("b", "2")]) as Hab.
  { unfold iteration_of, Sample.ab_map.
    rewrite map_to_list_insert by reflexivity.
    rewrite map_to_list_singleton. reflexivity. }
  assert (iteration_of Sample.ab_map [("b", "2"); ("a", "1")]) as Hba.
  { unfold iteration_of in *. rewrite <- Hab. apply Permutation_swap. }
  repeat split; assumption.
Qed.

Section SampleOrders.
#[local] Existing Instance Sample.spec_fxp.
#[local] Existing Instance Sample.model.

(** C5, as stated, fails: each call ranges over the replacement map in an
    order of its own.  The name ["@a@b@"] becomes ["1b@"] when ["a"] is
    replaced first and ["@a2"] when ["b"] is.  The entity has the skill
    ["1b@"] at level 12, cached and recomputed alike: [SkillLevel] with the
    first order finds it, [SkillLevelFast] with the second finds no skill. *)
Lemma SkillLevel_differs_from_SkillLevelFast_by_order :
  SkillDefault.Replacements_of Sample.ab_map Sample.a_then_b
  ∧ SkillDefault.Replacements_of Sample.ab_map Sample.b_then_a
  ∧ (∀ sk, sk ∈ Sample.skills (Sample.skilled "1b@" (fxp.From 12)) →
           LevelData_Level sk = CalculateLevel_Level sk ∅)
  ∧ SkillDefault.SkillLevel (SkillDefault.mk "skill" "@a@b@" "" 0 0 0 0)
      (Sample.skilled "1b@" (fxp.From 12)) Sample.a_then_b false ∅ false
    = fxp.From 12
  ∧ SkillDefault.SkillLevelFast (SkillDefault.mk "skill" "@a@b@" "" 0 0 0 0)
      (Sample.skilled "1b@" (fxp.From 12)) Sample.b_then_a false ∅ false
    = fxp.Min
  ∧ SkillDefault.SkillLevel (SkillDefault.mk "skill" "@a@b@" "" 0 0 0 0)
      (Sample.skilled "1b@" (fxp.From 12)) Sample.a_then_b false ∅ false
    ≠ SkillDefault.SkillLevelFast (SkillDefault.mk "skill" "@a@b@" "" 0 0 0 0)
        (Sample.skilled "1b@" (fxp.From 12)) Sample.b_then_a false ∅ false.
Proof.
  destruct ab_map_orders as [Hab Hba].
  split; [exact Hab|]. split; [exact Hba|]. split.
  { intros sk ->%list_elem_of_singleton. reflexivity. }
  split; [reflexivity|]. split; [reflexivity|]. vm_compute. discriminate.
Qed.

End SampleOrders.

(** C5, amended.  When the cached level of every matching skill is the level
    a recomputation gives, and the loops of the two calls, in whatever order
    each visits the replacement map, leave the same name and the same
    specialization, the full and the fast resolution return the same
    value. *)
Theorem SkillLevel_agrees_with_SkillLevelFast {ops : fxp.Ops} {model : Model}
    (s : SkillDefault.t) (entity : Entity)
    (replacements replacements' : SkillDefault.Replacements)
    (requirePoints : bool) (excludes : gmap string bool) (ruleOf20 : bool) :
  SkillDefault.NameWithReplacements s replacements
  = SkillDefault.NameWithReplacements s replacements' →
  SkillDefault.SpecializationWithReplacements s replacements
  = SkillDefault.SpecializationWithReplacements s replacements' →
  (∀ sk,
     sk ∈ SkillNamed entity (SkillDefault.NameWithReplacements s replacements)
            (SkillDefault.SpecializationWithReplacements s replacements)
            requirePoints excludes →
     LevelData_Level sk = CalculateLevel_Level sk excludes) →
  SkillDefault.SkillLevel s entity replacements requirePoints excludes ruleOf20
  = SkillDefault.SkillLevelFast s entity replacements' requirePoints excludes ruleOf20.
Proof.
  intros Hname Hspec Hcached.
  destruct DefaultTypeIDs_ne as (Hdp & Hdb & Hds & _).
  unfold SkillDefault.SkillLevel, SkillDefault.SkillLevelFast.
  assert (SkillDefault.best s entity replacements requirePoints excludes
          = SkillDefault.bestFast s entity replacements' requirePoints excludes) as ->.
  { unfold SkillDefault.best, SkillDefault.bestFast.
    rewrite <- Hname, <- Hspec. by apply best_range_cached. }
  destruct (String.eqb_spec (SkillDefault.Type_ s) ParryID) as [Hp|_].
  { rewrite Hp. destruct (String.eqb_spec ParryID DodgeID); [congruence|done]. }
  destruct (String.eqb_spec (SkillDefault.Type_ s) BlockID) as [Hb|_].
  { rewrite Hb. destruct (String.eqb_spec BlockID DodgeID); [congruence|done]. }
  destruct (String.eqb_spec (SkillDefault.Type_ s) SkillID) as [Hs|_].
  { rewrite Hs. destruct (String.eqb_spec SkillID DodgeID); [congruence|done]. }
  unfold SkillDefault.SkillLevelFast.
  destruct (String.eqb (SkillDefault.Type_ s) DodgeID); [done|].
  destruct (String.eqb_spec (SkillDefault.Type_ s) ParryID); [done|].
  destruct (String.eqb_spec (SkillDefault.Type_ s) BlockID); [done|].
  by destruct (String.eqb_spec (SkillDefault.Type_ s) SkillID).
Qed.

(** The two calls visit the map in different orders; the name ["@a@ @b@"]
    comes out as ["1 2"] either way. *)
Lemma SkillLevel_agrees_with_SkillLevelFast_witness :
  SkillDefault.SkillLevel (model := Sample.model)
    (SkillDefault.mk "skill" "@a@ @b@" "" 0 0 0 0) (Sample.skilled "1 2" 120000)
    Sample.a_then_b false ∅ false
  = SkillDefault.SkillLevelFast (model := Sample.model)
      (SkillDefault.mk "skill" "@a@ @b@" "" 0 0 0 0) (Sample.skilled "1 2" 120000)
      Sample.b_then_a false ∅ false.
Proof.
  apply (SkillLevel_agrees_with_SkillLevelFast (model := Sample.model)).
  - reflexivity.
  - reflexivity.
  - intros sk Hin. apply list_elem_of_In in Hin. vm_compute in Hin.
    destruct Hin as [<-|[]]. reflexivity.
Defined.

(** A stale cache makes the two differ: the cached level is 12, a
    recomputation gives 10. *)
Example SkillLevel_stale_cache :
  SkillDefault.SkillLevel (model := Sample.model) (Sample.parry_default 0)
    (Sample.mkEntity 0 0 false 8 (λ _, 100000%Z)
       [Sample.mkSkill "Broadsword" "" 40000 120000 100000])
    SkillDefault.no_replacements false ∅ false = 80000%Z
  ∧ SkillDefault.SkillLevelFast (model := Sample.model) (Sample.parry_default 0)
      (Sample.mkEntity 0 0 false 8 (λ _, 100000%Z)
         [Sample.mkSkill "Broadsword" "" 40000 120000 100000])
      SkillDefault.no_replacements false ∅ false = 90000%Z.
Proof. split; reflexivity. Qed.

Section SentinelFacts.
Context {ops : fxp.Ops} {model : Model}.

(** Started at or above the sentinel, the loop of [best] ends at the sentinel
    exactly when it started there and no skill has both its cached and its
    recomputed level above the sentinel. *)
Lemma best_range_sentinel_iff (excludes : gmap string bool) (skills : list Skill) :
  ∀ best : fxp.Int,
    (fxp.Min ≤ best)%Z →
    SkillDefault.best_range excludes skills best = fxp.Min
    ↔ best = fxp.Min
      ∧ ∀ sk, sk ∈ skills →
              (LevelData_Level sk ≤ fxp.Min)%Z
              ∨ (CalculateLevel_Level sk excludes ≤ fxp.Min)%Z.
Proof.
  induction skills as [|sk rest IH]; intros best Hlow; cbn [SkillDefault.best_range].
  - split; [intros ->; split; [done|by intros sk ?%elem_of_nil]|by intros [-> _]].
  - rewrite IH.
    + split.
      * intros [Hstep Hrest].
        destruct (Z.ltb_spec best (LevelData_Level sk)) as [Hlt|Hge];
          [destruct (Z.ltb_spec best (CalculateLevel_Level sk excludes)) as [Hlt'|Hge']|].
        -- lia.
        -- split; [done|]. intros sk' [->|Hin]%elem_of_cons; [right; lia|by apply Hrest].
        -- split; [done|]. intros sk' [->|Hin]%elem_of_cons; [left; lia|by apply Hrest].
      * intros [-> Hall]. split.
        -- destruct (Hall sk) as [Hc|Hr]; [left| |].
           ++ destruct (Z.ltb_spec fxp.Min (LevelData_Level sk)); [lia|done].
           ++ destruct (Z.ltb_spec fxp.Min (LevelData_Level sk)); [|done].
              destruct (Z.ltb_spec fxp.Min (CalculateLevel_Level sk excludes)); [lia|done].
        -- intros sk' Hin. apply Hall. by right.
    + destruct (Z.ltb_spec best (LevelData_Level sk)); [|done].
      destruct (Z.ltb_spec best (CalculateLevel_Level sk excludes)); lia.
Qed.

End SentinelFacts.

(** In the arithmetic of the specification, halving and truncating is the
    floor of the half, in whole levels. *)
Lemma spec_fxp_half_floor (x : Z) :
  fxp.Trunc (Ops := Sample.spec_fxp) (fxp.Div (Ops := Sample.spec_fxp) x
                                        (fxp.Two (Ops := Sample.spec_fxp)))
  = fxp.From (Ops := Sample.spec_fxp) (x / fxp.Two (Ops := Sample.spec_fxp)).
Proof.
  cbn. f_equal.
  replace 20000%Z with (2 * 10000)%Z by reflexivity.
  rewrite Z.div_mul_cancel_r by lia. rewrite Z.div_div by lia. done.
Qed.

Section SampleRuns.
#[local] Existing Instance Sample.spec_fxp.
#[local] Existing Instance Sample.model.

(** C6, as stated, fails when a matching skill exists whose level is the
    sentinel: [best] starts at [fxp.Min] and only moves to a level above it,
    so the derived formula and the modifier are both skipped.  Here the
    entity has the skill the Parry default names, at level [fxp.Min], and
    the default has modifier +1. *)
Lemma SkillLevel_Parry_skill_at_Min :
  SkillNamed (Sample.fencer fxp.Min 0) "Broadsword" "" false ∅
  = [Sample.mkSkill "Broadsword" "" 40000 fxp.Min fxp.Min]
  ∧ SkillDefault.best (Sample.parry_default (fxp.From 1)) (Sample.fencer fxp.Min 0)
      SkillDefault.no_replacements false ∅ = fxp.Min
  ∧ SkillDefault.SkillLevel (Sample.parry_default (fxp.From 1)) (Sample.fencer fxp.Min 0)
      SkillDefault.no_replacements false ∅ false = fxp.Min
  ∧ SkillDefault.SkillLevel (Sample.parry_default (fxp.From 1)) (Sample.fencer fxp.Min 0)
      SkillDefault.no_replacements false ∅ false
    ≠ fxp.add
        (fxp.add (fxp.add (fxp.Trunc (fxp.Div fxp.Min fxp.Two)) fxp.Three)
           (ParryBonus (Sample.fencer fxp.Min 0)))
        (SkillDefault.Modifier (Sample.parry_default (fxp.From 1))).
Proof. repeat split. vm_compute. discriminate. Qed.

(** C6, amended.  For a Parry (Block) default, [SkillLevel] returns the
    sentinel [fxp.Min], without the modifier, when the best matching level is
    the sentinel; that is the case exactly when every matching skill has its
    cached or its recomputed level at or below the sentinel, in particular
    when no skill matches.  Otherwise it returns
    [best.Div(Two).Trunc() + Three +] the entity's Parry (Block) bonus, plus
    the modifier unless that sum is itself the sentinel, which is then
    returned as it is.  In the arithmetic of the specification (fixed point,
    [Div] and [Trunc] rounding down, exact addition) that value is
    [floor (best / 2) + 3 + bonus + modifier] for every best level; a best
    level of 12 and a bonus of 0 give 9, and 10 with a modifier of +1. *)
Theorem SkillLevel_Parry_Block :
  (∀ (ops : fxp.Ops) (model : Model) (s : SkillDefault.t) (entity : Entity)
     (replacements : SkillDefault.Replacements) (requirePoints : bool)
     (excludes : gmap string bool) (ruleOf20 : bool) (bonus : fxp.Int),
     (SkillDefault.DefaultType s = ParryID ∧ bonus = ParryBonus entity)
     ∨ (SkillDefault.DefaultType s = BlockID ∧ bonus = BlockBonus entity) →
     (SkillDefault.best s entity replacements requirePoints excludes = fxp.Min
      ↔ ∀ sk,
          sk ∈ SkillNamed entity (SkillDefault.NameWithReplacements s replacements)
                 (SkillDefault.SpecializationWithReplacements s replacements)
                 requirePoints excludes →
          (LevelData_Level sk ≤ fxp.Min)%Z
          ∨ (CalculateLevel_Level sk excludes ≤ fxp.Min)%Z)
     ∧ (SkillNamed entity (SkillDefault.NameWithReplacements s replacements)
          (SkillDefault.SpecializationWithReplacements s replacements)
          requirePoints excludes = [] →
        SkillDefault.SkillLevel s entity replacements requirePoints excludes ruleOf20
        = fxp.Min)
     ∧ (SkillDefault.best s entity replacements requirePoints excludes = fxp.Min →
        SkillDefault.SkillLevel s entity replacements requirePoints excludes ruleOf20
        = fxp.Min)
     ∧ (SkillDefault.best s entity replacements requirePoints excludes ≠ fxp.Min →
        fxp.add (fxp.add (fxp.Trunc (fxp.Div
                   (SkillDefault.best s entity replacements requirePoints excludes)
                   fxp.Two)) fxp.Three) bonus ≠ fxp.Min →
        SkillDefault.SkillLevel s entity replacements requirePoints excludes ruleOf20
        = fxp.add
            (fxp.add (fxp.add (fxp.Trunc (fxp.Div
                        (SkillDefault.best s entity replacements requirePoints excludes)
                        fxp.Two)) fxp.Three) bonus)
            (SkillDefault.Modifier s))
     ∧ (SkillDefault.best s entity replacements requirePoints excludes ≠ fxp.Min →
        fxp.add (fxp.add (fxp.Trunc (fxp.Div
                   (SkillDefault.best s entity replacements requirePoints excludes)
                   fxp.Two)) fxp.Three) bonus = fxp.Min →
        SkillDefault.SkillLevel s entity replacements requirePoints excludes ruleOf20
        = fxp.Min))
  ∧ (∀ (model : @Model Sample.spec_fxp) (s : SkillDefault.t) (entity : Entity)
       (replacements : SkillDefault.Replacements) (requirePoints : bool)
       (excludes : gmap string bool) (ruleOf20 : bool) (bonus : fxp.Int),
       (SkillDefault.DefaultType s = ParryID ∧ bonus = ParryBonus entity)
       ∨ (SkillDefault.DefaultType s = BlockID ∧ bonus = BlockBonus entity) →
       SkillDefault.best s entity replacements requirePoints excludes ≠ fxp.Min →
       (fxp.From (SkillDefault.best s entity replacements requirePoints excludes
                  / fxp.Two) + fxp.Three + bonus)%Z ≠ fxp.Min →
       SkillDefault.SkillLevel s entity replacements requirePoints excludes ruleOf20
       = (fxp.From (SkillDefault.best s entity replacements requirePoints excludes
                    / fxp.Two) + fxp.Three + bonus + SkillDefault.Modifier s)%Z)
  ∧ SkillDefault.SkillLevel (Sample.parry_default 0)
      (Sample.fencer (fxp.From 12) 0) SkillDefault.no_replacements false ∅ false = fxp.From 9
  ∧ SkillDefault.SkillLevel (Sample.parry_default (fxp.From 1))
      (Sample.fencer (fxp.From 12) 0) SkillDefault.no_replacements false ∅ false = fxp.From 10
  ∧ SkillDefault.SkillLevel (Sample.block_default 0)
      (Sample.fencer (fxp.From 12) 0) SkillDefault.no_replacements false ∅ false = fxp.From 9
  ∧ SkillDefault.SkillLevel (Sample.block_default (fxp.From 1))
      (Sample.fencer (fxp.From 12) 0) SkillDefault.no_replacements false ∅ false = fxp.From 10.
Proof.
  assert (∀ (ops : fxp.Ops) (model : Model) (s : SkillDefault.t) (entity : Entity)
            (replacements : SkillDefault.Replacements) (requirePoints : bool)
            (excludes : gmap string bool) (ruleOf20 : bool) (bonus : fxp.Int),
            (SkillDefault.DefaultType s = ParryID ∧ bonus = ParryBonus entity)
            ∨ (SkillDefault.DefaultType s = BlockID ∧ bonus = BlockBonus entity) →
            SkillDefault.SkillLevel s entity replacements requirePoints excludes ruleOf20
            = SkillDefault.finalLevel s
                (if bool_decide
                      (SkillDefault.best s entity replacements requirePoints excludes
                       ≠ fxp.Min)
                 then fxp.add (fxp.add (fxp.Trunc (fxp.Div
                         (SkillDefault.best s entity replacements requirePoints excludes)
                         fxp.Two)) fxp.Three) bonus
                 else SkillDefault.best s entity replacements requirePoints excludes))
    as Hdispatch.
  { intros ops model s entity replacements requirePoints excludes ruleOf20 bonus Hcase.
    destruct (DefaultTypeIDs_ne (model := model)) as (_ & _ & _ & Hpb & _).
    unfold SkillDefault.SkillLevel, SkillDefault.Type_.
    destruct Hcase as [[-> ->]|[-> ->]].
    - by rewrite String.eqb_refl.
    - destruct (String.eqb_spec BlockID ParryID); [congruence|].
      by rewrite String.eqb_refl. }
  split; [|split; [|repeat split]].
  - intros ops model s entity replacements requirePoints excludes ruleOf20 bonus Hcase.
    rewrite (Hdispatch ops model s entity replacements requirePoints excludes ruleOf20
               bonus Hcase).
    assert (SkillDefault.best s entity replacements requirePoints excludes = fxp.Min →
            SkillDefault.finalLevel s
              (if bool_decide
                    (SkillDefault.best s entity replacements requirePoints excludes
                     ≠ fxp.Min)
               then fxp.add (fxp.add (fxp.Trunc (fxp.Div
                       (SkillDefault.best s entity replacements requirePoints excludes)
                       fxp.Two)) fxp.Three) bonus
               else SkillDefault.best s entity replacements requirePoints excludes)
            = fxp.Min) as Hmin.
    { intros ->. rewrite bool_decide_false by auto. apply finalLevel_Min. }
    split; [|split; [|split; [|split]]].
    + unfold SkillDefault.best. rewrite best_range_sentinel_iff by lia. tauto.
    + intros Hnone. apply Hmin. by apply best_no_skill.
    + exact Hmin.
    + intros Hbest Hsum. rewrite bool_decide_true by done.
      by apply finalLevel_defined.
    + intros Hbest Hsum. rewrite bool_decide_true by done.
      rewrite Hsum. apply finalLevel_Min.
  - intros model s entity replacements requirePoints excludes ruleOf20 bonus
      Hcase Hbest Hsum.
    rewrite (Hdispatch Sample.spec_fxp model s entity replacements requirePoints
               excludes ruleOf20 bonus Hcase).
    rewrite bool_decide_true by done. rewrite spec_fxp_half_floor.
    by rewrite finalLevel_defined.
Qed.

End SampleRuns.

Lemma SkillLevel_Parry_Block_witness :
  SkillDefault.SkillLevel (model := Sample.model) (Sample.parry_default 10000)
    (Sample.fencer 120000 0) SkillDefault.no_replacements false ∅ false
  = (120000 * 10000 / 20000 / 10000 * 10000 + 30000 + 0 + 10000)%Z.
Proof.
  refine (proj1 (proj2 (proj2 (proj2 (proj1 SkillLevel_Parry_Block
            Sample.spec_fxp Sample.model
            (Sample.parry_default 10000) (Sample.fencer 120000 0)
            SkillDefault.no_replacements false ∅ false 0%Z
            (or_introl (conj eq_refl eq_refl)))))) _ _).
  - vm_compute. discriminate.
  - vm_compute. discriminate.
Defined.

(** ** SkillDefault: which default types are skill based *)

Lemma skillBasedDefaultTypes_index {ops : fxp.Ops} {model : Model} (k : string) :
  SkillDefault.map_index SkillDefault.skillBasedDefaultTypes k = true
  ↔ k = SkillID ∨ k = ParryID ∨ k = BlockID.
Proof.
  unfold SkillDefault.map_index, SkillDefault.skillBasedDefaultTypes.
  destruct (decide (BlockID = k)) as [<-|Hb].
  { rewrite lookup_insert_eq. naive_solver. }
  rewrite lookup_insert_ne by done.
  destruct (decide (ParryID = k)) as [<-|Hp].
  { rewrite lookup_insert_eq. naive_solver. }
  rewrite lookup_insert_ne by done.
  destruct (decide (SkillID = k)) as [<-|Hs].
  { rewrite lookup_insert_eq. naive_solver. }
  rewrite lookup_insert_ne, lookup_empty by done. simpl.
  split; [done|]. intros [?|[?|?]]; congruence.
Qed.

Section SampleDefaultTypes.
#[local] Existing Instance Sample.spec_fxp.
#[local] Existing Instance Sample.model.

(** C10. [DefaultTypeIsSkillBased] and [SkillBased] hold exactly when the
    default type, with the surrounding white space trimmed and put in lower
    case, is the Skill, Parry or Block identifier.  The switch of
    [SkillLevel] compares the default type as it is: a default type that is
    not literally one of the three identifiers is resolved by
    [SkillLevelFast], so [" Parry "] is skill based and yet resolved as the
    attribute of that name. *)
Theorem SkillBased_normalises_SkillLevel_does_not :
  (∀ (ops : fxp.Ops) (model : Model),
     (∀ t : string,
        SkillDefault.DefaultTypeIsSkillBased t = true
        ↔ ToLower (TrimSpace t) = SkillID ∨ ToLower (TrimSpace t) = ParryID
          ∨ ToLower (TrimSpace t) = BlockID)
     ∧ (∀ s : SkillDefault.t,
          SkillDefault.SkillBased s = true
          ↔ ToLower (TrimSpace (SkillDefault.DefaultType s)) = SkillID
            ∨ ToLower (TrimSpace (SkillDefault.DefaultType s)) = ParryID
            ∨ ToLower (TrimSpace (SkillDefault.DefaultType s)) = BlockID)
     ∧ (∀ (s : SkillDefault.t) (entity : Entity) (replacements : SkillDefault.Replacements)
          (requirePoints : bool) (excludes : gmap string bool) (ruleOf20 : bool),
          SkillDefault.DefaultType s ≠ ParryID →
          SkillDefault.DefaultType s ≠ BlockID →
          SkillDefault.DefaultType s ≠ SkillID →
          SkillDefault.SkillLevel s entity replacements requirePoints excludes ruleOf20
          = SkillDefault.SkillLevelFast s entity replacements requirePoints excludes ruleOf20))
  ∧ SkillDefault.DefaultTypeIsSkillBased " Parry " = true
  ∧ SkillDefault.SkillBased (SkillDefault.mk " Parry " "Broadsword" "" 0 0 0 0) = true
  ∧ SkillDefault.SkillLevel (SkillDefault.mk " Parry " "Broadsword" "" 0 0 0 0)
      (Sample.fencer (fxp.From 12) 0) SkillDefault.no_replacements false ∅ false
    = ResolveAttributeCurrent (Sample.fencer (fxp.From 12) 0) " Parry "
  ∧ SkillDefault.SkillLevel (SkillDefault.mk "parry" "Broadsword" "" 0 0 0 0)
      (Sample.fencer (fxp.From 12) 0) SkillDefault.no_replacements false ∅ false
    = fxp.From 9.
Proof.
  split; [|repeat split].
  intros ops model. split; [|split].
  - intros t. apply skillBasedDefaultTypes_index.
  - intros s. apply skillBasedDefaultTypes_index.
  - intros s entity replacements requirePoints excludes ruleOf20 Hp Hb Hs.
    unfold SkillDefault.SkillLevel, SkillDefault.Type_.
    destruct (String.eqb_spec (SkillDefault.DefaultType s) ParryID); [done|].
    destruct (String.eqb_spec (SkillDefault.DefaultType s) BlockID); [done|].
    by destruct (String.eqb_spec (SkillDefault.DefaultType s) SkillID).
Qed.

End SampleDefaultTypes.

Lemma SkillBased_normalises_SkillLevel_does_not_witness :
  SkillDefault.SkillLevel (model := Sample.model)
    (SkillDefault.mk "ST" "" "" 0 0 0 0) (Sample.fencer 120000 0) SkillDefault.no_replacements false ∅ true
  = SkillDefault.SkillLevelFast (model := Sample.model)
      (SkillDefault.mk "ST" "" "" 0 0 0 0) (Sample.fencer 120000 0) SkillDefault.no_replacements false ∅ true.
Proof.
  apply (proj2 (proj2 (proj1 SkillBased_normalises_SkillLevel_does_not
                         Sample.spec_fxp Sample.model)));
    vm_compute; discriminate.
Defined.

(** ** ContainedWeightPrereq *)

Section SamplePrereqs.
#[local] Existing Instance Sample.spec_fxp.
#[local] Existing Instance Sample.model.

(** C1, as stated, fails both ways.  When [exclude] is not an Equipment the
    check fails and [Has = false] turns that into [true]; when it is an
    Equipment that is not a container the check succeeds and [Has = true]
    keeps it. *)
Lemma Satisfied_without_container_depends_on_Has :
  ContainedWeightPrereq.is_container ContainedWeightPrereq.any_other = false
  ∧ (ContainedWeightPrereq.Satisfied (ContainedWeightPrereq.mk None tt false 5%Z)
       (Sample.fencer 0 0) ContainedWeightPrereq.any_other None "").1 = true
  ∧ ContainedWeightPrereq.is_container
      (ContainedWeightPrereq.any_Equipment (Sample.mkEquipment false 3 3)) = false
  ∧ (ContainedWeightPrereq.Satisfied (ContainedWeightPrereq.mk None tt true 5%Z)
       (Sample.fencer 0 0)
       (ContainedWeightPrereq.any_Equipment (Sample.mkEquipment false 3 3)) None "").1 = true.
Proof. repeat split. Qed.

(** The four rows of the truth table, on a container that holds 4 of weight
    against a limit of 5 (the check succeeds) or of 2 (it fails). *)
Example Satisfied_rows :
  ContainedWeightPrereq.Satisfied (ContainedWeightPrereq.mk None tt true 5%Z) (Sample.fencer 0 0)
    (ContainedWeightPrereq.any_Equipment (Sample.mkEquipment true 7 3)) (Some "") "It "
  = (true, Some "")
  ∧ ContainedWeightPrereq.Satisfied (ContainedWeightPrereq.mk None tt false 5%Z) (Sample.fencer 0 0)
      (ContainedWeightPrereq.any_Equipment (Sample.mkEquipment true 7 3)) (Some "") "It "
    = (false, Some "It does not have a contained weight which is at most 5 lb")
  ∧ ContainedWeightPrereq.Satisfied (ContainedWeightPrereq.mk None tt true 2%Z) (Sample.fencer 0 0)
      (ContainedWeightPrereq.any_Equipment (Sample.mkEquipment true 7 3)) (Some "") "It "
    = (false, Some "It has a contained weight which is at most 5 lb")
  ∧ ContainedWeightPrereq.Satisfied (ContainedWeightPrereq.mk None tt false 2%Z) (Sample.fencer 0 0)
      (ContainedWeightPrereq.any_Equipment (Sample.mkEquipment true 7 3)) (Some "") "It "
    = (true, Some "").
Proof. repeat split. Qed.

End SamplePrereqs.

(** C1, amended.  When [exclude] is not an equipment container the result is
    decided by [Has] alone: it is [Has] for an Equipment that is not a
    container and the negation of [Has] for anything that is not an
    Equipment. *)
Theorem Satisfied_without_container {ops : fxp.Ops} {model : Model}
    (c : ContainedWeightPrereq.t) (entity : Entity) (exclude : ContainedWeightPrereq.any)
    (tooltip : option string) (prefix : string) :
  ContainedWeightPrereq.is_container exclude = false →
  (ContainedWeightPrereq.Satisfied c entity exclude tooltip prefix).1
  = match exclude with
    | ContainedWeightPrereq.any_Equipment _ => ContainedWeightPrereq.Has c
    | ContainedWeightPrereq.any_other => negb (ContainedWeightPrereq.Has c)
    end.
Proof.
  intros Hnc. unfold ContainedWeightPrereq.Satisfied.
  destruct exclude as [eqp|]; simpl in Hnc; [rewrite Hnc|];
    destruct (ContainedWeightPrereq.Has c), tooltip; reflexivity.
Qed.

Section SamplePrereqWitness.
#[local] Existing Instance Sample.spec_fxp.
#[local] Existing Instance Sample.model.

Lemma Satisfied_without_container_witness :
  (ContainedWeightPrereq.Satisfied
     (ContainedWeightPrereq.mk None tt false 5%Z) (Sample.fencer 0 0)
     (ContainedWeightPrereq.any_Equipment (Sample.mkEquipment false 3 3)) (Some "") "It ").1
  = false.
Proof.
  apply (Satisfied_without_container (model := Sample.model)
           (ContainedWeightPrereq.mk (model := Sample.model) None tt false 5%Z)
           (Sample.fencer 0 0)
           (ContainedWeightPrereq.any_Equipment (model := Sample.model)
              (Sample.mkEquipment false 3 3))).
  reflexivity.
Defined.

End SamplePrereqWitness.

(** C3. The result of [Satisfied] is the outcome of the domain check when
    [Has] holds and its negation otherwise.  A nil tooltip stays nil; a
    buffer is written to exactly when the result is [false], and what is
    appended is the prefix, the phrase [HasText] gives for [Has], and the
    description of the criterion. *)
Theorem Satisfied_truth_table {ops : fxp.Ops} {model : Model}
    (c : ContainedWeightPrereq.t) (entity : Entity) (exclude : ContainedWeightPrereq.any)
    (tooltip : option string) (prefix : string) :
  (ContainedWeightPrereq.Satisfied c entity exclude tooltip prefix).1
  = (if ContainedWeightPrereq.Has c
     then ContainedWeightPrereq.variant_outcome c entity exclude
     else negb (ContainedWeightPrereq.variant_outcome c entity exclude))
  ∧ (ContainedWeightPrereq.Satisfied c entity exclude tooltip prefix).2
    = match tooltip with
      | None => None
      | Some buffer =>
          if (ContainedWeightPrereq.Satisfied c entity exclude tooltip prefix).1
          then Some buffer
          else Some (buffer +:+ (prefix +:+ (HasText (ContainedWeightPrereq.Has c)
                       +:+ (i18n_Text " a contained weight which "
                       +:+ WeightCriteria_String (ContainedWeightPrereq.WeightCriteria_ c)))))
      end.
Proof.
  unfold ContainedWeightPrereq.Satisfied, ContainedWeightPrereq.variant_outcome,
    ContainedWeightPrereq.WriteString.
  destruct exclude as [eqp|]; [destruct (Container eqp)|];
    destruct (ContainedWeightPrereq.Has c); simpl;
    repeat match goal with |- context [Matches ?q ?w] => destruct (Matches q w) end;
    destruct tooltip; simpl; rewrite ?string_app_assoc; done.
Qed.

(** ** WeaponBonus *)

Lemma exact_key_is_not_wildcard_key (prefix qualifier : string) :
  (prefix +:+ "/") +:+ qualifier ≠ prefix +:+ "*".
Proof.
  rewrite string_app_assoc. intros Heq. apply (inj _) in Heq. discriminate.
Qed.

Lemma buildKey_exact (w : WeaponBonus.t) (prefix : string) :
  WeaponBonus.buildKey w prefix
  = (prefix +:+ "/") +:+ criteria.Qualifier (WeaponBonus.NameCriteria w)
  ↔ criteria.Compare (WeaponBonus.NameCriteria w) = criteria.Is
    ∧ criteria.Compare (WeaponBonus.SpecializationCriteria w) = criteria.Any
    ∧ criteria.Compare (WeaponBonus.TagsCriteria w) = criteria.Any.
Proof.
  unfold WeaponBonus.buildKey.
  repeat case_bool_decide; simpl; split; try done;
    try (intros Heq; symmetry in Heq; by apply exact_key_is_not_wildcard_key in Heq);
    intros (? & ? & ?); done.
Qed.

Lemma buildKey_wildcard (w : WeaponBonus.t) (prefix : string) :
  WeaponBonus.buildKey w prefix = prefix +:+ "*"
  ↔ ¬ (criteria.Compare (WeaponBonus.NameCriteria w) = criteria.Is
       ∧ criteria.Compare (WeaponBonus.SpecializationCriteria w) = criteria.Any
       ∧ criteria.Compare (WeaponBonus.TagsCriteria w) = criteria.Any).
Proof.
  rewrite <- (buildKey_exact w prefix). unfold WeaponBonus.buildKey.
  match goal with |- context [if ?b then _ else _] => destruct b end; split.
  - intros Heq. by apply exact_key_is_not_wildcard_key in Heq.
  - intros Hne. by destruct Hne.
  - intros _ Heq. symmetry in Heq. by apply exact_key_is_not_wildcard_key in Heq.
  - done.
Qed.

(** C7. [FeatureMapKey] returns the fixed key [ThisWeaponID] for the
    selection [ThisWeapon].  For [WithRequiredSkill] (prefix [SkillNameID])
    and [WithName] (prefix [WeaponNamedIDPrefix]) it returns the prefix, ["/"]
    and the qualifier of the name criterion exactly when the name criterion
    compares with [Is] and the specialization and tags criteria with [Any],
    and the prefix followed by ["*"] otherwise.  Two bonuses with the same
    selection type and the same three criteria get the same key. *)
Theorem FeatureMapKey_cases {ops : fxp.Ops} {model : Model} (w : WeaponBonus.t) :
  (WeaponBonus.SelectionType w = weapon.ThisWeapon →
   WeaponBonus.FeatureMapKey w = WeaponBonus.Returns WeaponBonus.ThisWeaponID)
  ∧ (∀ prefix : string,
       (WeaponBonus.SelectionType w = weapon.WithRequiredSkill ∧ prefix = SkillNameID)
       ∨ (WeaponBonus.SelectionType w = weapon.WithName
          ∧ prefix = WeaponBonus.WeaponNamedIDPrefix) →
       (WeaponBonus.FeatureMapKey w
        = WeaponBonus.Returns
            ((prefix +:+ "/") +:+ criteria.Qualifier (WeaponBonus.NameCriteria w))
        ↔ criteria.Compare (WeaponBonus.NameCriteria w) = criteria.Is
          ∧ criteria.Compare (WeaponBonus.SpecializationCriteria w) = criteria.Any
          ∧ criteria.Compare (WeaponBonus.TagsCriteria w) = criteria.Any)
       ∧ (WeaponBonus.FeatureMapKey w = WeaponBonus.Returns (prefix +:+ "*")
          ↔ ¬ (criteria.Compare (WeaponBonus.NameCriteria w) = criteria.Is
               ∧ criteria.Compare (WeaponBonus.SpecializationCriteria w) = criteria.Any
               ∧ criteria.Compare (WeaponBonus.TagsCriteria w) = criteria.Any)))
  ∧ (∀ w' : WeaponBonus.t,
       WeaponBonus.SelectionType w' = WeaponBonus.SelectionType w →
       WeaponBonus.NameCriteria w' = WeaponBonus.NameCriteria w →
       WeaponBonus.SpecializationCriteria w' = WeaponBonus.SpecializationCriteria w →
       WeaponBonus.TagsCriteria w' = WeaponBonus.TagsCriteria w →
       WeaponBonus.FeatureMapKey w' = WeaponBonus.FeatureMapKey w).
Proof.
  split; [|split].
  - intros Hsel. unfold WeaponBonus.FeatureMapKey. by rewrite Hsel.
  - intros prefix Hsel.
    assert (WeaponBonus.FeatureMapKey w
            = WeaponBonus.Returns (WeaponBonus.buildKey w prefix)) as ->.
    { unfold WeaponBonus.FeatureMapKey. by destruct Hsel as [[-> ->]|[-> ->]]. }
    rewrite <- (buildKey_wildcard w prefix), <- (buildKey_exact w prefix).
    split; (split; [by intros [= ->]|by intros ->]).
  - intros w' Hsel Hn Hs Ht.
    unfold WeaponBonus.FeatureMapKey, WeaponBonus.buildKey.
    by rewrite Hsel, Hn, Hs, Ht.
Qed.

Section SampleBonuses.
#[local] Existing Instance Sample.spec_fxp.
#[local] Existing Instance Sample.model.

(** A bonus for weapons named Broadsword gets an exact key; asking for a
    specialization as well moves it to the wildcard key. *)
Lemma FeatureMapKey_cases_witness :
  WeaponBonus.FeatureMapKey
    (Sample.broadsword_bonus weapon.WithName (criteria.mkString criteria.Any ""))
  = WeaponBonus.Returns "weapon_named./Broadsword"
  ∧ WeaponBonus.FeatureMapKey
      (Sample.broadsword_bonus weapon.WithName (criteria.mkString criteria.Is "Two-Handed"))
    = WeaponBonus.Returns "weapon_named.*".
Proof.
  split.
  - destruct (FeatureMapKey_cases (model := Sample.model)
                (Sample.broadsword_bonus weapon.WithName (criteria.mkString criteria.Any "")))
      as (_ & Hkey & _).
    destruct (Hkey "weapon_named." (or_intror (conj eq_refl eq_refl))) as [Hexact _].
    apply Hexact. repeat split.
  - destruct (FeatureMapKey_cases (model := Sample.model)
                (Sample.broadsword_bonus weapon.WithName
                   (criteria.mkString criteria.Is "Two-Handed")))
      as (_ & Hkey & _).
    destruct (Hkey "weapon_named." (or_intror (conj eq_refl eq_refl))) as [_ Hwild].
    apply Hwild. intros (_ & Hspec & _). discriminate Hspec.
Defined.

Example FeatureMapKey_other_selections :
  WeaponBonus.FeatureMapKey
    (Sample.broadsword_bonus weapon.ThisWeapon (criteria.mkString criteria.Any ""))
  = WeaponBonus.Returns (String (Ascii.ascii_of_nat 1) "")
  ∧ WeaponBonus.FeatureMapKey
      (Sample.broadsword_bonus weapon.WithRequiredSkill (criteria.mkString criteria.Any ""))
    = WeaponBonus.Returns "skill.name/Broadsword"
  ∧ WeaponBonus.FeatureMapKey
      (Sample.broadsword_bonus (weapon.other 7) (criteria.mkString criteria.Any ""))
    = WeaponBonus.Fatal.
Proof. repeat split. Qed.

End SampleBonuses.

(** The example of the specification, through the theorem on
    [ExtractNameables]: the segment at index 1 of ["@ST@ is strong"] is a
    key, and it is given itself as replacement. *)
Lemma ExtractNameables_sets_odd_segments_witness :
  ExtractNameables "@ST@ is strong" ∅ ∅ !! "ST" = Some "ST"
  ∧ ExtractNameables "ST@ is strong" {[ "DX" := "12" ]} ∅ = {[ "DX" := "12" ]}.
Proof.
  split.
  - destruct (ExtractNameables_sets_odd_segments "@ST@ is strong" ∅ ∅) as [_ Hkeys].
    apply (Hkeys ltac:(vm_compute; lia) "ST").
    exists 1. repeat split. vm_compute. lia.
  - destruct (ExtractNameables_sets_odd_segments "ST@ is strong" {[ "DX" := "12" ]} ∅)
      as [Hsame _].
    apply Hsame. vm_compute. lia.
Defined.

(** * Further properties of the code *)

(** ** RetainNeededReplacements and ApplyNameablesToList *)

Lemma retain_step_lookup_ne (needed ret : gmap string string) (kv : string * string)
    (k : string) :
  kv.1 ≠ k →
  match needed !! kv.1 with
  | Some _ => <[kv.1 := kv.2]> ret
  | None => ret
  end !! k = ret !! k.
Proof. intros Hne. destruct (needed !! kv.1); [by rewrite lookup_insert_ne|done]. Qed.

(** Entries with another key, or a key that is not needed, leave the value
    at [k] alone. *)
Lemma retain_fold_miss (needed : gmap string string) (k : string)
    (order : list (string * string)) :
  ∀ ret : gmap string string,
    needed !! k = None ∨ k ∉ order.*1 →
    foldl (λ ret kv, match needed !! kv.1 with
                     | Some _ => <[kv.1 := kv.2]> ret
                     | None => ret
                     end) ret order !! k = ret !! k.
Proof.
  induction order as [|kv order IH]; intros ret Hk; simpl; [done|].
  rewrite IH.
  - destruct (decide (kv.1 = k)) as [Heq|Hne]; [|by apply retain_step_lookup_ne].
    destruct Hk as [Hn|Hnot].
    + by rewrite Heq, Hn.
    + exfalso. apply Hnot. rewrite fmap_cons, Heq. left.
  - destruct Hk as [Hn|Hnot]; [by left|right].
    intros Hin. apply Hnot. rewrite fmap_cons. by right.
Qed.

Lemma retain_fold_hit (needed : gmap string string) (k v : string)
    (order : list (string * string)) :
  ∀ ret : gmap string string,
    NoDup order.*1 → (k, v) ∈ order → is_Some (needed !! k) →
    foldl (λ ret kv, match needed !! kv.1 with
                     | Some _ => <[kv.1 := kv.2]> ret
                     | None => ret
                     end) ret order !! k = Some v.
Proof.
  induction order as [|kv order IH]; intros ret Hnd Hin [w Hw].
  - by apply elem_of_nil in Hin.
  - rewrite fmap_cons in Hnd. apply NoDup_cons in Hnd as [Hfresh Hnd].
    apply elem_of_cons in Hin as [<-|Hin]; simpl.
    + rewrite retain_fold_miss by (by right).
      rewrite Hw. by rewrite lookup_insert_eq.
    + by apply IH.
Qed.

Lemma retain_lookup (needed replacements : gmap string string)
    (order : list (string * string)) (k : string) :
  iteration_of replacements order →
  RetainNeededReplacements needed order !! k
  = match needed !! k with
    | Some _ => replacements !! k
    | None => None
    end.
Proof.
  unfold iteration_of, RetainNeededReplacements. intros Hperm.
  destruct (needed !! k) as [w|] eqn:Hn.
  - destruct (replacements !! k) as [v|] eqn:Hr.
    + apply retain_fold_hit; [| |by rewrite Hn].
      * rewrite Hperm. apply NoDup_fst_map_to_list.
      * rewrite Hperm. by apply elem_of_map_to_list.
    + rewrite retain_fold_miss; [by rewrite lookup_empty|].
      right. rewrite Hperm. intros ([k' v] & Hk & Hin)%list_elem_of_fmap.
      simpl in Hk. subst k'. apply elem_of_map_to_list in Hin. congruence.
  - rewrite retain_fold_miss by (by left). by rewrite lookup_empty.
Qed.

(** X1. Whatever the order in which the map is visited,
    [RetainNeededReplacements] returns exactly the entries of [replacements]
    whose key [needed] holds: a needed key has the value it has in
    [replacements] (none if it has none there) and every other key is
    absent.  The values of [needed] play no part. *)
Theorem RetainNeededReplacements_lookup (needed replacements : gmap string string)
    (order : list (string * string)) :
  iteration_of replacements order →
  ∀ k : string,
    (is_Some (needed !! k) →
     RetainNeededReplacements needed order !! k = replacements !! k)
    ∧ (needed !! k = None → RetainNeededReplacements needed order !! k = None).
Proof.
  intros Hit k. rewrite (retain_lookup needed replacements order k Hit).
  split; [intros [w ->]; done|intros ->; done].
Qed.

Lemma RetainNeededReplacements_lookup_witness :
  RetainNeededReplacements {[ "ST" := "x" ]} [("ST", "14"); ("DX", "12")] !! "ST" = Some "14"
  ∧ RetainNeededReplacements {[ "ST" := "x" ]} [("ST", "14"); ("DX", "12")] !! "DX" = None.
Proof.
  assert (iteration_of (<[ "ST" := "14" ]> {[ "DX" := "12" ]}) [("ST", "14"); ("DX", "12")])
    as Hit.
  { unfold iteration_of. rewrite map_to_list_insert by reflexivity.
    rewrite map_to_list_singleton. reflexivity. }
  split.
  - rewrite (proj1 (RetainNeededReplacements_lookup {[ "ST" := "x" ]} _ _ Hit "ST"));
      [reflexivity|]. eexists. reflexivity.
  - apply (proj2 (RetainNeededReplacements_lookup {[ "ST" := "x" ]} _ _ Hit "DX")).
    reflexivity.
Defined.

(** X2. The result of [RetainNeededReplacements] is a part of [replacements],
    it does not depend on the order of iteration, and retaining again with
    the same [needed] changes nothing. *)
Theorem RetainNeededReplacements_submap_stable (needed replacements : gmap string string)
    (order order' order'' : list (string * string)) :
  iteration_of replacements order →
  iteration_of replacements order' →
  iteration_of (RetainNeededReplacements needed order) order'' →
  RetainNeededReplacements needed order ⊆ replacements
  ∧ RetainNeededReplacements needed order' = RetainNeededReplacements needed order
  ∧ RetainNeededReplacements needed order'' = RetainNeededReplacements needed order.
Proof.
  intros Hit Hit' Hit''. split; [|split].
  - apply map_subseteq_spec. intros k v.
    rewrite (retain_lookup needed replacements order k Hit).
    by destruct (needed !! k).
  - apply map_eq. intros k.
    by rewrite (retain_lookup needed replacements order k Hit),
               (retain_lookup needed replacements order' k Hit').
  - apply map_eq. intros k.
    rewrite (retain_lookup needed _ order'' k Hit'').
    rewrite (retain_lookup needed replacements order k Hit).
    by destruct (needed !! k).
Qed.

(** A map of two entries visited in its two orders, one entry retained. *)
Lemma RetainNeededReplacements_submap_stable_witness :
  RetainNeededReplacements {[ "ST" := "x" ]} [("ST", "14"); ("DX", "12")]
    ⊆ (<[ "ST" := "14" ]> {[ "DX" := "12" ]} : gmap string string)
  ∧ RetainNeededReplacements {[ "ST" := "x" ]} [("DX", "12"); ("ST", "14")]
    = RetainNeededReplacements {[ "ST" := "x" ]} [("ST", "14"); ("DX", "12")]
  ∧ RetainNeededReplacements {[ "ST" := "x" ]} [("ST", "14")]
    = RetainNeededReplacements {[ "ST" := "x" ]} [("ST", "14"); ("DX", "12")].
Proof.
  assert (iteration_of (<[ "ST" := "14" ]> {[ "DX" := "12" ]})
            [("ST", "14"); ("DX", "12")]) as Hit.
  { unfold iteration_of. rewrite map_to_list_insert by reflexivity.
    rewrite map_to_list_singleton. reflexivity. }
  apply (RetainNeededReplacements_submap_stable {[ "ST" := "x" ]}
           (<[ "ST" := "14" ]> {[ "DX" := "12" ]})
           [("ST", "14"); ("DX", "12")] [("DX", "12"); ("ST", "14")] [("ST", "14")]).
  - exact Hit.
  - unfold iteration_of in *. rewrite <- Hit. apply Permutation_swap.
  - unfold iteration_of.
    replace (RetainNeededReplacements {[ "ST" := "x" ]} [("ST", "14"); ("DX", "12")])
      with ({[ "ST" := "14" ]} : gmap string string) by (vm_compute; reflexivity).
    rewrite map_to_list_singleton. reflexivity.
Defined.





Example ApplyNameablesToList_ex :
  ApplyNameablesToList ["@ST@ is strong"; "plain"; "@DX@"] [("ST", "14")]
  = ["14 is strong"; "plain"; "@DX@"]
  ∧ ApplyNameablesToList [] [("ST", "14")] = [].
Proof. split; reflexivity. Qed.

(** ** ExtractNameables and SkillDefault.FillWithNameableKeys *)

Lemma extract_range_position_dec (count : nat) (parts : list string) (key : string) :
  ∀ i : nat,
    (∃ j, parts !! j = Some key ∧ (i + j) mod 2 = 1 ∧ i + j < count)
    ∨ ¬ (∃ j, parts !! j = Some key ∧ (i + j) mod 2 = 1 ∧ i + j < count).
Proof.
  induction parts as [|one rest IH]; intros i.
  - right. intros (j & Hj & _). by rewrite lookup_nil in Hj.
  - destruct (IH (S i)) as [(j & Hj & Hodd & Hlt)|Hno].
    + left. exists (S j). replace (i + S j) with (S i + j) by lia. done.
    + destruct (decide (one = key ∧ i mod 2 = 1 ∧ i < count)) as [(-> & Hodd & Hlt)|Hhead].
      * left. exists 0. rewrite Nat.add_0_r. done.
      * right. intros ([|j] & Hj & Hodd & Hlt).
        -- apply Hhead. rewrite Nat.add_0_r in Hodd, Hlt.
           simpl in Hj. injection Hj as ->. done.
        -- apply Hno. exists j. replace (S i + j) with (i + S j) by lia. done.
Qed.

(** For a given text and key, [ExtractNameables] either sets the key to its
    replacement whatever the map held, or leaves the map's value at the key
    alone whatever the map held. *)
Lemma ExtractNameables_lookup_cases (str : string) (existing : gmap string string)
    (key : string) :
  (∀ m : gmap string string,
     ExtractNameables str m existing !! key = Some (default key (existing !! key)))
  ∨ (∀ m : gmap string string, ExtractNameables str m existing !! key = m !! key).
Proof.
  unfold ExtractNameables.
  destruct (1 <? Strings.Count str "@")%nat; [|by right].
  destruct (extract_range_position_dec (Strings.Count str "@")
              (Strings.Split str "@") key 0) as [Hhit|Hmiss].
  - left. intros m. by apply extract_range_hit.
  - right. intros m. by apply extract_range_miss.
Qed.

(** X4. Extracting the keys of a text a second time changes nothing, and the
    keys of two texts can be extracted in either order. *)
Theorem ExtractNameables_idempotent_commutes (str str' : string)
    (m existing : gmap string string) :
  ExtractNameables str (ExtractNameables str m existing) existing
  = ExtractNameables str m existing
  ∧ ExtractNameables str (ExtractNameables str' m existing) existing
    = ExtractNameables str' (ExtractNameables str m existing) existing.
Proof.
  split; apply map_eq; intros key.
  - destruct (ExtractNameables_lookup_cases str existing key) as [H|H]; by rewrite !H.
  - destruct (ExtractNameables_lookup_cases str existing key) as [H|H],
             (ExtractNameables_lookup_cases str' existing key) as [H'|H'];
      by rewrite ?H, ?H', ?H.
Qed.

(** X5. [SkillDefault.FillWithNameableKeys] sets a key exactly when it is a
    key of the name or of the specialization, to its value in [existing] if
    it has one and to itself otherwise; every other key of [m] keeps its
    value.  Filling a second time changes nothing. *)
Theorem SkillDefault_FillWithNameableKeys_keys (s : SkillDefault.t)
    (m existing : gmap string string) :
  (∀ key : string,
     (candidate_key (SkillDefault.Name s) key
      ∨ candidate_key (SkillDefault.Specialization s) key →
      SkillDefault.FillWithNameableKeys s m existing !! key
      = Some (default key (existing !! key)))
     ∧ (¬ candidate_key (SkillDefault.Name s) key →
        ¬ candidate_key (SkillDefault.Specialization s) key →
        SkillDefault.FillWithNameableKeys s m existing !! key = m !! key))
  ∧ SkillDefault.FillWithNameableKeys s
      (SkillDefault.FillWithNameableKeys s m existing) existing
    = SkillDefault.FillWithNameableKeys s m existing.
Proof.
  assert (∀ str key (m' : gmap string string),
            candidate_key str key →
            ExtractNameables str m' existing !! key
            = Some (default key (existing !! key))) as Hhit.
  { intros str key m' (i & Hi & Hodd & Hlt). unfold ExtractNameables.
    assert (i ≠ 0) by (intros ->; discriminate Hodd).
    destruct (Nat.ltb_spec 1 (Strings.Count str "@")); [|lia].
    apply extract_range_hit. by exists i. }
  assert (∀ str key (m' : gmap string string),
            ¬ candidate_key str key →
            ExtractNameables str m' existing !! key = m' !! key) as Hmiss.
  { intros str key m' Hno. unfold ExtractNameables.
    destruct (1 <? Strings.Count str "@")%nat; [|done].
    apply extract_range_miss. intros (i & Hi & Hodd & Hlt). apply Hno. by exists i. }
  unfold SkillDefault.FillWithNameableKeys. split.
  - intros key. split.
    + intros [Hn|Hs].
      * destruct (ExtractNameables_lookup_cases (SkillDefault.Specialization s) existing key)
          as [H|H]; rewrite H; [done|by apply Hhit].
      * by apply Hhit.
    + intros Hn Hs. by rewrite !Hmiss.
  - apply map_eq. intros key.
    destruct (ExtractNameables_lookup_cases (SkillDefault.Name s) existing key) as [H|H],
             (ExtractNameables_lookup_cases (SkillDefault.Specialization s) existing key)
               as [H'|H'];
      by rewrite ?H', ?H, ?H', ?H.
Qed.

Example SkillDefault_FillWithNameableKeys_ex :
  SkillDefault.FillWithNameableKeys
    (SkillDefault.mk "skill" "@Weapon@" "@Style@ style" 0 0 0 0)
    {[ "Other" := "kept" ]} {[ "Weapon" := "Broadsword" ]}
  = {[ "Other" := "kept"; "Weapon" := "Broadsword"; "Style" := "Style" ]}.
Proof. vm_compute. reflexivity. Qed.

(** ** Segments, tokens and markers *)

Lemma prefix_marker_cons (c : Ascii.ascii) (x y : string) :
  String.prefix "@" (String c x) = String.prefix "@" (String c y).
Proof.
  unfold String.prefix. destruct (Ascii.ascii_dec _ c); [by destruct x, y|done].
Qed.

Lemma prefix_marker_true (c : Ascii.ascii) (s : string) :
  String.prefix "@" (String c s) = true → String c s = "@" +:+ s.
Proof.
  unfold String.prefix. by destruct (Ascii.ascii_dec _ c) as [<-|].
Qed.

Lemma string_app_empty_r (s : string) : s +:+ "" = s.
Proof. induction s as [|c s IH]; [done|]. by rewrite string_app_cons, IH. Qed.

Lemma split_from_not_nil (skip : nat) (sep cur s : string) :
  Strings.split_from skip sep cur s ≠ [].
Proof.
  revert skip cur. induction s as [|c s IH]; intros skip cur; simpl; [done|].
  destruct skip; [|apply IH]. destruct (String.prefix sep (String c s)); [done|apply IH].
Qed.

Lemma Join_cons (one : string) (rest : list string) (sep : string) :
  rest ≠ [] → Strings.Join (one :: rest) sep = one +:+ sep +:+ Strings.Join rest sep.
Proof. by destruct rest. Qed.

(** Joining the segments of a text with the marker gives the text back. *)
Lemma Join_split_marker (s : string) :
  ∀ cur : string, Strings.Join (Strings.split_from 0 "@" cur s) "@" = cur +:+ s.
Proof.
  induction s as [|c s IH]; intros cur.
  - simpl. by rewrite string_app_empty_r.
  - cbn [Strings.split_from].
    destruct (String.prefix "@" (String c s)) eqn:Hp.
    + rewrite Join_cons by apply split_from_not_nil.
      change (String.length "@" - 1) with 0.
      by rewrite IH, (prefix_marker_true c s Hp).
    + rewrite IH, string_app_assoc. done.
Qed.

Lemma Join_Split_marker (s : string) : Strings.Join (Strings.Split s "@") "@" = s.
Proof. apply (Join_split_marker s ""). Qed.

Lemma count_marker_app (a b : string) :
  Strings.Count (a +:+ b) "@" = Strings.Count a "@" + Strings.Count b "@".
Proof.
  unfold Strings.Count. induction a as [|c a IH]; [done|].
  rewrite string_app_cons. cbn [Strings.count_from].
  change (String.length "@" - 1) with 0.
  rewrite (prefix_marker_cons c (a +:+ b) a), IH.
  by destruct (String.prefix "@" (String c a)).
Qed.

(** No segment holds a marker. *)
Lemma split_marker_free (s : string) :
  ∀ (cur part : string),
    Strings.Count cur "@" = 0 →
    part ∈ Strings.split_from 0 "@" cur s → Strings.Count part "@" = 0.
Proof.
  induction s as [|c s IH]; intros cur part Hcur.
  - simpl. by intros ->%list_elem_of_singleton.
  - cbn [Strings.split_from]. change (String.length "@" - 1) with 0.
    destruct (String.prefix "@" (String c s)) eqn:Hp.
    + intros [->|Hin]%elem_of_cons; [done|]. by apply (IH "").
    + apply IH. rewrite count_marker_app, Hcur.
      unfold Strings.Count. cbn [Strings.count_from].
      by rewrite (prefix_marker_cons c "" s), Hp.
Qed.

Lemma Join_token (parts : list string) :
  ∀ (i : nat) (key : string),
    0 < i → parts !! i = Some key → S i < length parts →
    ∃ a b, Strings.Join parts "@" = a +:+ "@" +:+ key +:+ "@" +:+ b.
Proof.
  induction parts as [|one rest IH]; intros i key Hpos Hi Hlen; [done|].
  destruct i as [|i]; [lia|]. simpl in Hi, Hlen.
  rewrite Join_cons by (by destruct rest).
  destruct i as [|i].
  - destruct rest as [|k rest]; [done|]. simpl in Hi. injection Hi as ->.
    exists one, (Strings.Join rest "@").
    rewrite Join_cons by (destruct rest; [simpl in Hlen; lia|done]). done.
  - destruct (IH (S i) key) as (a & b & ->); [lia|done|lia|].
    exists (one +:+ "@" +:+ a), b. by rewrite !string_app_assoc.
Qed.

(** X6. Every key [ExtractNameables] takes from a text holds no marker and
    stands in the text between two markers. *)
Theorem candidate_key_is_token (str key : string) :
  candidate_key str key →
  Strings.Count key "@" = 0
  ∧ ∃ before after : string, str = before +:+ "@" +:+ key +:+ "@" +:+ after.
Proof.
  intros (i & Hi & Hodd & Hlt). split.
  - apply (split_marker_free str "" key); [done|].
    apply list_elem_of_lookup. by exists i.
  - assert (0 < i) by (destruct i; [discriminate Hodd|lia]).
    destruct (Join_token (Strings.Split str "@") i key) as (a & b & Hj); [done..| |].
    + rewrite Split_length. lia.
    + exists a, b. by rewrite <- Hj, Join_Split_marker.
Qed.

Lemma candidate_key_is_token_witness :
  Strings.Count "ST" "@" = 0
  ∧ ∃ before after : string,
      "@ST@ is strong" = before +:+ "@" +:+ "ST" +:+ "@" +:+ after.
Proof.
  apply candidate_key_is_token. exists 1. repeat split. vm_compute. lia.
Defined.

Lemma replace_from_marker_le (old new : string) :
  Strings.Count new "@" = 0 →
  ∀ (s : string) (skip : nat),
    (Strings.Count (Strings.replace_from skip old new s) "@" ≤ Strings.Count s "@")%nat.
Proof.
  intros Hnew. induction s as [|c s IH]; intros skip; [done|].
  assert (Strings.Count s "@" ≤ Strings.Count (String c s) "@")%nat as Hmono.
  { change (String c s) with (String c "" +:+ s). rewrite count_marker_app. lia. }
  cbn [Strings.replace_from]. destruct skip as [|k].
  - destruct (String.prefix old (String c s)).
    + rewrite count_marker_app, Hnew. specialize (IH (String.length old - 1)). simpl. lia.
    + change (String c (Strings.replace_from 0 old new s))
        with (String c "" +:+ Strings.replace_from 0 old new s).
      change (String c s) with (String c "" +:+ s).
      rewrite !count_marker_app. specialize (IH 0). lia.
  - specialize (IH k). lia.
Qed.

(** X7. When no replacement value holds the marker, [ApplyNameables] never
    adds a marker to the text: the result holds at most as many as the
    text did, in whatever order the map is visited. *)
Theorem ApplyNameables_adds_no_marker (str : string) (m : gmap string string)
    (order : list (string * string)) :
  marker_free_values m → iteration_of m order →
  (Strings.Count (ApplyNameables str order) "@" ≤ Strings.Count str "@")%nat.
Proof.
  intros Hfree Hit. unfold ApplyNameables.
  destruct (1 <? Strings.Count str "@")%nat; [|done].
  assert (∀ kv, kv ∈ order → Strings.Count kv.2 "@" = 0) as Hvals.
  { intros [k v] Hin. apply (Hfree k v). apply elem_of_map_to_list.
    unfold iteration_of in Hit. by rewrite <- Hit. }
  clear Hit Hfree. revert str Hvals.
  induction order as [|kv order IH]; intros str Hvals; simpl; [done|].
  etrans; [apply IH; intros kv' Hin; apply Hvals; by right|].
  apply replace_from_marker_le. apply Hvals. left.
Qed.

Lemma ApplyNameables_adds_no_marker_witness :
  (Strings.Count (ApplyNameables "@ST@ is @DX@" [("ST", "14")]) "@"
   ≤ Strings.Count "@ST@ is @DX@" "@")%nat.
Proof.
  apply (ApplyNameables_adds_no_marker _ {[ "ST" := "14" ]}).
  - intros k v [_ <-]%lookup_singleton_Some. reflexivity.
  - unfold iteration_of. rewrite map_to_list_singleton. reflexivity.
Defined.

(** ** SkillDefault: equivalence, hashing and cloning together *)

Lemma Equivalent_true_iff (s other : SkillDefault.t)
    (replacements other_replacements : SkillDefault.Replacements) :
  SkillDefault.Equivalent s replacements (Some other) other_replacements = true
  ↔ SkillDefault.DefaultType s = SkillDefault.DefaultType other
    ∧ SkillDefault.Modifier s = SkillDefault.Modifier other
    ∧ SkillDefault.NameWithReplacements s replacements
      = SkillDefault.NameWithReplacements other other_replacements
    ∧ SkillDefault.SpecializationWithReplacements s replacements
      = SkillDefault.SpecializationWithReplacements other other_replacements.
Proof.
  unfold SkillDefault.Equivalent.
  rewrite !andb_true_iff, !String.eqb_eq, Z.eqb_eq. tauto.
Qed.

(** X8. [Equivalent] is false for the nil pointer and does not look at
    [Level], [AdjLevel] or [Points].  On SkillDefault values taken with the
    orders in which their two loops visit the map, it is an equivalence
    relation: a value is equivalent to itself when its loops visit the map in
    the same orders both times, the result is the same with the two sides
    exchanged, and it is transitive through a middle value whose loops keep
    their orders. *)
Theorem Equivalent_equivalence (a b c : SkillDefault.t)
    (ra rb rc : SkillDefault.Replacements) :
  SkillDefault.Equivalent a ra None rb = false
  ∧ SkillDefault.Equivalent a ra (Some a) ra = true
  ∧ SkillDefault.Equivalent a ra (Some b) rb
    = SkillDefault.Equivalent b rb (Some a) ra
  ∧ (SkillDefault.Equivalent a ra (Some b) rb = true →
     SkillDefault.Equivalent b rb (Some c) rc = true →
     SkillDefault.Equivalent a ra (Some c) rc = true)
  ∧ ∀ level adjLevel points : fxp.Int,
      SkillDefault.Equivalent a ra
        (Some (SkillDefault.mk (SkillDefault.DefaultType b) (SkillDefault.Name b)
                 (SkillDefault.Specialization b) (SkillDefault.Modifier b)
                 level adjLevel points)) rb
      = SkillDefault.Equivalent a ra (Some b) rb.
Proof.
  split; [done|]. split; [|split; [|split]].
  - apply Equivalent_true_iff. done.
  - apply eq_true_iff_eq. rewrite !Equivalent_true_iff. intuition congruence.
  - rewrite !Equivalent_true_iff. intuition congruence.
  - done.
Qed.

(** When the two loops over the same name visit the map in different orders,
    a value need not be equivalent to itself: ["@a@b@"] becomes ["1b@"] in
    one order and ["@a2"] in the other. *)
Example Equivalent_across_orders :
  SkillDefault.Equivalent (SkillDefault.mk "skill" "@a@b@" "" 0 0 0 0) Sample.a_then_b
    (Some (SkillDefault.mk "skill" "@a@b@" "" 0 0 0 0)) Sample.b_then_a = false
  ∧ SkillDefault.Equivalent (SkillDefault.mk "skill" "@a@b@" "" 0 0 0 0) Sample.a_then_b
      (Some (SkillDefault.mk "skill" "@a@b@" "" 0 0 0 0)) Sample.a_then_b = true.
Proof. split; reflexivity. Qed.

(** X9. With no replacement to apply (the map is empty, or no text field of
    either value holds more than one marker), two SkillDefault values are
    [Equivalent] exactly when their four source fields are equal, and then
    [Hash] writes the same bytes for both. *)
Theorem Equivalent_without_tokens {ops : fxp.Ops} (a b : SkillDefault.t)
    (replacements other_replacements : SkillDefault.Replacements)
    (h : list Byte.byte) :
  (replacements = SkillDefault.no_replacements
   ∧ other_replacements = SkillDefault.no_replacements)
  ∨ ((Strings.Count (SkillDefault.Name a) "@" ≤ 1)%nat
     ∧ (Strings.Count (SkillDefault.Specialization a) "@" ≤ 1)%nat
     ∧ (Strings.Count (SkillDefault.Name b) "@" ≤ 1)%nat
     ∧ (Strings.Count (SkillDefault.Specialization b) "@" ≤ 1)%nat) →
  (SkillDefault.Equivalent a replacements (Some b) other_replacements = true
   ↔ SkillDefault.DefaultType a = SkillDefault.DefaultType b
     ∧ SkillDefault.Name a = SkillDefault.Name b
     ∧ SkillDefault.Specialization a = SkillDefault.Specialization b
     ∧ SkillDefault.Modifier a = SkillDefault.Modifier b)
  ∧ (SkillDefault.Equivalent a replacements (Some b) other_replacements = true →
     SkillDefault.Hash a h = SkillDefault.Hash b h).
Proof.
  intros Hplain.
  assert (∀ str order, order = [] ∨ (Strings.Count str "@" ≤ 1)%nat →
                       ApplyNameables str order = str) as Hid.
  { intros str order [->|Hle]; unfold ApplyNameables.
    - by destruct (1 <? Strings.Count str "@")%nat.
    - destruct (Nat.ltb_spec 1 (Strings.Count str "@")); [lia|done]. }
  assert (SkillDefault.Equivalent a replacements (Some b) other_replacements = true
          ↔ SkillDefault.DefaultType a = SkillDefault.DefaultType b
            ∧ SkillDefault.Name a = SkillDefault.Name b
            ∧ SkillDefault.Specialization a = SkillDefault.Specialization b
            ∧ SkillDefault.Modifier a = SkillDefault.Modifier b) as Hiff.
  { rewrite Equivalent_true_iff.
    unfold SkillDefault.NameWithReplacements, SkillDefault.SpecializationWithReplacements.
    rewrite !Hid by (destruct Hplain as [[-> ->]|(?&?&?&?)]; auto). tauto. }
  split; [done|].
  intros (Ht & Hn & Hs & Hm)%Hiff. unfold SkillDefault.Hash. by rewrite Ht, Hn, Hs, Hm.
Qed.

Lemma Equivalent_without_tokens_witness :
  SkillDefault.Hash (ops := Sample.spec_fxp)
    (SkillDefault.mk "parry" "Broadsword" "" 10000 90000 80000 40000) []
  = SkillDefault.Hash (ops := Sample.spec_fxp)
      (SkillDefault.mk "parry" "Broadsword" "" 10000 0 0 0) [].
Proof.
  apply (Equivalent_without_tokens (ops := Sample.spec_fxp) _ _
           Sample.a_then_b Sample.b_then_a).
  - right. vm_compute. repeat split; lia.
  - reflexivity.
Defined.

(** With replacements to apply, equivalent values need not hash alike: the
    names differ as written and agree once the key is replaced. *)
Example Equivalent_different_Hash :
  SkillDefault.Equivalent (SkillDefault.mk "skill" "@One@ Sword" "" 0 0 0 0)
    (SkillDefault.mkReplacements [("One", "Broad")] [("One", "Broad")])
    (Some (SkillDefault.mk "skill" "Broad Sword" "" 0 0 0 0))
    (SkillDefault.mkReplacements [("One", "Broad")] [("One", "Broad")]) = true
  ∧ SkillDefault.Hash (ops := Sample.spec_fxp)
      (SkillDefault.mk "skill" "@One@ Sword" "" 0 0 0 0) []
    ≠ SkillDefault.Hash (ops := Sample.spec_fxp)
        (SkillDefault.mk "skill" "Broad Sword" "" 0 0 0 0) [].
Proof. split; [reflexivity|]. vm_compute. discriminate. Qed.

(** X10. [CloneWithoutLevelOrPoints] fails on a pointer the store does not
    hold.  Otherwise the copy has zero [Level], [AdjLevel] and [Points],
    [Hash] writes the same bytes for it as for the original, and [Equivalent]
    cannot tell the two apart: on either side of a comparison, and whatever
    the orders in which the loops visit the map, the copy gives the result
    the original gives. *)
Theorem CloneWithoutLevelOrPoints_same_identity
    (σ : gmap positive SkillDefault.t) (s : positive) :
  match σ !! s with
  | None => SkillDefault.CloneWithoutLevelOrPoints s σ = None
  | Some v =>
      ∃ (p : positive) (σ' : gmap positive SkillDefault.t) (clone : SkillDefault.t),
        SkillDefault.CloneWithoutLevelOrPoints s σ = Some (p, σ')
        ∧ σ' !! p = Some clone
        ∧ (∀ (other : option SkillDefault.t)
             (replacements other_replacements : SkillDefault.Replacements),
             SkillDefault.Equivalent clone replacements other other_replacements
             = SkillDefault.Equivalent v replacements other other_replacements)
        ∧ (∀ (other : SkillDefault.t)
             (replacements other_replacements : SkillDefault.Replacements),
             SkillDefault.Equivalent other other_replacements (Some clone) replacements
             = SkillDefault.Equivalent other other_replacements (Some v) replacements)
        ∧ (∀ (ops : fxp.Ops) (h : list Byte.byte),
             SkillDefault.Hash clone h = SkillDefault.Hash v h)
        ∧ SkillDefault.Level clone = 0%Z
        ∧ SkillDefault.AdjLevel clone = 0%Z
        ∧ SkillDefault.Points clone = 0%Z
  end.
Proof.
  unfold SkillDefault.CloneWithoutLevelOrPoints.
  destruct (σ !! s) as [v|]; [|done].
  eexists _, _, _. split; [reflexivity|]. split; [by rewrite lookup_insert_eq|].
  split; [|done]. intros other replacements other_replacements. by destruct other.
Qed.

(** X11. [Hash] only appends: what the hasher held stays in front, and the
    bytes added are as many as the three text fields are long plus the size
    of the modifier. *)
Theorem Hash_appends {ops : fxp.Ops} (s : SkillDefault.t) (h : list Byte.byte) :
  SkillDefault.Hash s h = h ++ SkillDefault.Hash s []
  ∧ length (SkillDefault.Hash s h)
    = length h + String.length (SkillDefault.DefaultType s)
      + String.length (SkillDefault.Name s)
      + String.length (SkillDefault.Specialization s) + fxp.Size.
Proof.
  assert (∀ str, length (bytes_of_string str) = String.length str) as Hlen.
  { intros str. unfold bytes_of_string. rewrite length_fmap.
    induction str as [|c str IH]; simpl; [done|]. by rewrite IH. }
  split.
  - rewrite (Hash_unfold s h), (Hash_unfold s []). done.
  - unfold SkillDefault.Hash.
    rewrite !length_app, !Hlen, binary_facts.LittleEndian_length. lia.
Qed.

(** ** SkillDefault: the best matching level *)

Section BestFacts.
Context {ops : fxp.Ops} {model : Model}.

Lemma bestFast_range_bounds (skills : list Skill) :
  ∀ best : fxp.Int,
    (best ≤ SkillDefault.bestFast_range skills best)%Z
    ∧ (∀ sk, sk ∈ skills →
             (LevelData_Level sk ≤ SkillDefault.bestFast_range skills best)%Z)
    ∧ (SkillDefault.bestFast_range skills best = best
       ∨ ∃ sk, sk ∈ skills ∧ LevelData_Level sk = SkillDefault.bestFast_range skills best).
Proof.
  induction skills as [|sk rest IH]; intros best; cbn [SkillDefault.bestFast_range].
  - split; [lia|]. split; [by intros sk ?%elem_of_nil|by left].
  - destruct (IH (if (best <? LevelData_Level sk)%Z then LevelData_Level sk else best))
      as (Hlow & Hall & Hsome).
    destruct (Z.ltb_spec best (LevelData_Level sk)) as [Hlt|Hge].
    + split; [lia|]. split.
      * intros sk' [->|Hin]%elem_of_cons; [lia|by apply Hall].
      * right. destruct Hsome as [Heq|(sk' & Hin & Heq)].
        -- exists sk. split; [left|done].
        -- exists sk'. split; [by right|done].
    + split; [lia|]. split.
      * intros sk' [->|Hin]%elem_of_cons; [lia|by apply Hall].
      * destruct Hsome as [Heq|(sk' & Hin & Heq)]; [by left|right].
        exists sk'. split; [by right|done].
Qed.

Lemma best_range_bounds (excludes : gmap string bool) (skills : list Skill) :
  ∀ best : fxp.Int,
    (best ≤ SkillDefault.best_range excludes skills best)%Z
    ∧ (∀ sk, sk ∈ skills →
             (Z.min (LevelData_Level sk) (CalculateLevel_Level sk excludes)
              ≤ SkillDefault.best_range excludes skills best)%Z)
    ∧ (SkillDefault.best_range excludes skills best = best
       ∨ ∃ sk, sk ∈ skills
               ∧ CalculateLevel_Level sk excludes
                 = SkillDefault.best_range excludes skills best).
Proof.
  induction skills as [|sk rest IH]; intros best; cbn [SkillDefault.best_range].
  - split; [lia|]. split; [by intros sk ?%elem_of_nil|by left].
  - destruct (IH (if (best <? LevelData_Level sk)%Z
                  then if (best <? CalculateLevel_Level sk excludes)%Z
                       then CalculateLevel_Level sk excludes else best
                  else best)) as (Hlow & Hall & Hsome).
    destruct (Z.ltb_spec best (LevelData_Level sk)) as [Hlt|Hge];
      [destruct (Z.ltb_spec best (CalculateLevel_Level sk excludes)) as [Hlt'|Hge']|].
    + split; [lia|]. split.
      * intros sk' [->|Hin]%elem_of_cons; [lia|by apply Hall].
      * right. destruct Hsome as [Heq|(sk' & Hin & Heq)].
        -- exists sk. split; [left|done].
        -- exists sk'. split; [by right|done].
    + split; [lia|]. split.
      * intros sk' [->|Hin]%elem_of_cons; [lia|by apply Hall].
      * destruct Hsome as [Heq|(sk' & Hin & Heq)]; [by left|right].
        exists sk'. split; [by right|done].
    + split; [lia|]. split.
      * intros sk' [->|Hin]%elem_of_cons; [lia|by apply Hall].
      * destruct Hsome as [Heq|(sk' & Hin & Heq)]; [by left|right].
        exists sk'. split; [by right|done].
Qed.

End BestFacts.

(** X12. [bestFast] returns the greatest cached level among the matching
    skills and the sentinel: it is at least [fxp.Min] and at least the cached
    level of every matching skill, and it is [fxp.Min] or the cached level of
    one of them. *)
Theorem bestFast_is_greatest {ops : fxp.Ops} {model : Model}
    (s : SkillDefault.t) (entity : Entity) (replacements : SkillDefault.Replacements)
    (requirePoints : bool) (excludes : gmap string bool) :
  (fxp.Min ≤ SkillDefault.bestFast s entity replacements requirePoints excludes)%Z
  ∧ (∀ sk,
       sk ∈ SkillNamed entity (SkillDefault.NameWithReplacements s replacements)
              (SkillDefault.SpecializationWithReplacements s replacements)
              requirePoints excludes →
       (LevelData_Level sk
        ≤ SkillDefault.bestFast s entity replacements requirePoints excludes)%Z)
  ∧ (SkillDefault.bestFast s entity replacements requirePoints excludes = fxp.Min
     ∨ ∃ sk,
         sk ∈ SkillNamed entity (SkillDefault.NameWithReplacements s replacements)
                (SkillDefault.SpecializationWithReplacements s replacements)
                requirePoints excludes
         ∧ LevelData_Level sk
           = SkillDefault.bestFast s entity replacements requirePoints excludes).
Proof. unfold SkillDefault.bestFast. apply bestFast_range_bounds. Qed.

(** X13. [best] never goes below the sentinel and never returns a level no
    skill has: it is [fxp.Min] or the recomputed level of a matching skill.
    It is at least the smaller of the cached and the recomputed level of
    every matching skill. *)
Theorem best_bounds {ops : fxp.Ops} {model : Model}
    (s : SkillDefault.t) (entity : Entity) (replacements : SkillDefault.Replacements)
    (requirePoints : bool) (excludes : gmap string bool) :
  (fxp.Min ≤ SkillDefault.best s entity replacements requirePoints excludes)%Z
  ∧ (∀ sk,
       sk ∈ SkillNamed entity (SkillDefault.NameWithReplacements s replacements)
              (SkillDefault.SpecializationWithReplacements s replacements)
              requirePoints excludes →
       (Z.min (LevelData_Level sk) (CalculateLevel_Level sk excludes)
        ≤ SkillDefault.best s entity replacements requirePoints excludes)%Z)
  ∧ (SkillDefault.best s entity replacements requirePoints excludes = fxp.Min
     ∨ ∃ sk,
         sk ∈ SkillNamed entity (SkillDefault.NameWithReplacements s replacements)
                (SkillDefault.SpecializationWithReplacements s replacements)
                requirePoints excludes
         ∧ CalculateLevel_Level sk excludes
           = SkillDefault.best s entity replacements requirePoints excludes).
Proof. unfold SkillDefault.best. apply best_range_bounds. Qed.

Section SampleBest.
#[local] Existing Instance Sample.spec_fxp.
#[local] Existing Instance Sample.model.

(** With stale caches, [best] depends on the order of the skills: the first
    skill is recomputed to 10, which hides the second one, whose cache says 7
    and whose recomputed level is 12. *)
Example best_depends_on_order :
  SkillDefault.best (Sample.parry_default 0)
    (Sample.mkEntity 0 0 false 8 (λ _, 100000%Z)
       [Sample.mkSkill "Broadsword" "" 40000 (fxp.From 5) (fxp.From 10);
        Sample.mkSkill "Broadsword" "" 40000 (fxp.From 7) (fxp.From 12)])
    SkillDefault.no_replacements false ∅ = fxp.From 10
  ∧ SkillDefault.best (Sample.parry_default 0)
      (Sample.mkEntity 0 0 false 8 (λ _, 100000%Z)
         [Sample.mkSkill "Broadsword" "" 40000 (fxp.From 7) (fxp.From 12);
          Sample.mkSkill "Broadsword" "" 40000 (fxp.From 5) (fxp.From 10)])
      SkillDefault.no_replacements false ∅ = fxp.From 12.
Proof. split; reflexivity. Qed.

End SampleBest.

(** ** ContainedWeightPrereq: cloning, hashing, negation *)

(** X14. [Clone] changes the parent and nothing else that [Satisfied] or
    [Hash] look at: the copy has the given parent, gives the same result and
    the same tooltip as the original on every input, and writes the same
    bytes to a hasher. *)
Theorem ContainedWeightPrereq_Clone_behaves_alike {ops : fxp.Ops} {model : Model}
    (Type_bytes : PrereqType → list Byte.byte)
    (WeightCriteria_bytes : WeightCriteria → list Byte.byte)
    (c : ContainedWeightPrereq.t) (parent : option positive) :
  ContainedWeightPrereq.Parent (ContainedWeightPrereq.Clone c parent) = parent
  ∧ (∀ (entity : Entity) (exclude : ContainedWeightPrereq.any)
       (tooltip : option string) (prefix : string),
       ContainedWeightPrereq.Satisfied (ContainedWeightPrereq.Clone c parent)
         entity exclude tooltip prefix
       = ContainedWeightPrereq.Satisfied c entity exclude tooltip prefix)
  ∧ (∀ h : list Byte.byte,
       ContainedWeightPrereq.Hash Type_bytes WeightCriteria_bytes
         (Some (ContainedWeightPrereq.Clone c parent)) h
       = ContainedWeightPrereq.Hash Type_bytes WeightCriteria_bytes (Some c) h)
  ∧ ContainedWeightPrereq.Clone (ContainedWeightPrereq.Clone c parent)
      (ContainedWeightPrereq.Parent c) = c.
Proof.
  split; [done|]. split; [|split].
  - intros entity exclude tooltip prefix. by destruct c.
  - intros h. by destruct c.
  - by destruct c.
Qed.

(** X15. [Hash] writes nothing for the nil prerequisite and only appends for
    any other; two prerequisites of the same type whose [Has] differ never
    write the same bytes, whatever their weight criteria. *)
Theorem ContainedWeightPrereq_Hash_separates_Has {ops : fxp.Ops} {model : Model}
    (Type_bytes : PrereqType → list Byte.byte)
    (WeightCriteria_bytes : WeightCriteria → list Byte.byte)
    (h : list Byte.byte) :
  ContainedWeightPrereq.Hash Type_bytes WeightCriteria_bytes None h = h
  ∧ (∀ c : ContainedWeightPrereq.t,
       ContainedWeightPrereq.Hash Type_bytes WeightCriteria_bytes (Some c) h
       = h ++ ContainedWeightPrereq.Hash Type_bytes WeightCriteria_bytes (Some c) [])
  ∧ (∀ c c' : ContainedWeightPrereq.t,
       ContainedWeightPrereq.Type_ c = ContainedWeightPrereq.Type_ c' →
       ContainedWeightPrereq.Has c ≠ ContainedWeightPrereq.Has c' →
       ContainedWeightPrereq.Hash Type_bytes WeightCriteria_bytes (Some c) h
       ≠ ContainedWeightPrereq.Hash Type_bytes WeightCriteria_bytes (Some c') h).
Proof.
  split; [done|]. split.
  - intros c. unfold ContainedWeightPrereq.Hash. by rewrite <- !app_assoc.
  - intros c c' Htype Hhas. unfold ContainedWeightPrereq.Hash.
    rewrite <- !app_assoc, Htype. intros Heq.
    do 2 apply app_inv_head in Heq. simpl in Heq. injection Heq as Hb _.
    apply Hhas.
    by destruct (ContainedWeightPrereq.Has c), (ContainedWeightPrereq.Has c').
Qed.

(** X16. The result of [Satisfied] depends on neither the tooltip nor the
    prefix, and a prerequisite with [Has] negated gives the negated result. *)
Theorem Satisfied_negated_Has {ops : fxp.Ops} {model : Model}
    (c : ContainedWeightPrereq.t) (entity : Entity) (exclude : ContainedWeightPrereq.any)
    (tooltip tooltip' : option string) (prefix prefix' : string) :
  (ContainedWeightPrereq.Satisfied c entity exclude tooltip prefix).1
  = (ContainedWeightPrereq.Satisfied c entity exclude tooltip' prefix').1
  ∧ (ContainedWeightPrereq.Satisfied
       (ContainedWeightPrereq.mk (ContainedWeightPrereq.Parent c)
          (ContainedWeightPrereq.Type_ c) (negb (ContainedWeightPrereq.Has c))
          (ContainedWeightPrereq.WeightCriteria_ c))
       entity exclude tooltip prefix).1
    = negb (ContainedWeightPrereq.Satisfied c entity exclude tooltip' prefix').1.
Proof.
  unfold ContainedWeightPrereq.Satisfied. cbn [ContainedWeightPrereq.Has
    ContainedWeightPrereq.WeightCriteria_].
  destruct exclude as [eqp|]; [destruct (Container eqp)|];
    destruct (ContainedWeightPrereq.Has c); simpl;
    repeat match goal with |- context [Matches ?q ?w] => destruct (Matches q w) end;
    destruct tooltip, tooltip'; done.
Qed.

(** ** WeaponBonus: substitution and the map key *)

(** X17. [ApplyNameableKeys] keeps the form of the map key.  A bonus for
    this weapon keeps the fixed key, and its name and tags criteria are not
    touched.  A bonus selected by name or required skill keeps a wildcard key
    if it had one, and otherwise gets the exact key of the substituted name.
    An invalid selection stays fatal. *)
Theorem ApplyNameableKeys_keeps_key_form {ops : fxp.Ops} {model : Model}
    (nameables_Apply : string → gmap string string → string)
    (w : WeaponBonus.t) (m : gmap string string) :
  (WeaponBonus.SelectionType w = weapon.ThisWeapon →
   WeaponBonus.FeatureMapKey (WeaponBonus.ApplyNameableKeys nameables_Apply w m)
   = WeaponBonus.Returns WeaponBonus.ThisWeaponID
   ∧ WeaponBonus.NameCriteria (WeaponBonus.ApplyNameableKeys nameables_Apply w m)
     = WeaponBonus.NameCriteria w
   ∧ WeaponBonus.TagsCriteria (WeaponBonus.ApplyNameableKeys nameables_Apply w m)
     = WeaponBonus.TagsCriteria w)
  ∧ (∀ prefix : string,
       (WeaponBonus.SelectionType w = weapon.WithRequiredSkill ∧ prefix = SkillNameID)
       ∨ (WeaponBonus.SelectionType w = weapon.WithName
          ∧ prefix = WeaponBonus.WeaponNamedIDPrefix) →
       (criteria.Compare (WeaponBonus.NameCriteria w) = criteria.Is
        ∧ criteria.Compare (WeaponBonus.SpecializationCriteria w) = criteria.Any
        ∧ criteria.Compare (WeaponBonus.TagsCriteria w) = criteria.Any →
        WeaponBonus.FeatureMapKey (WeaponBonus.ApplyNameableKeys nameables_Apply w m)
        = WeaponBonus.Returns
            ((prefix +:+ "/")
             +:+ nameables_Apply (criteria.Qualifier (WeaponBonus.NameCriteria w)) m))
       ∧ (¬ (criteria.Compare (WeaponBonus.NameCriteria w) = criteria.Is
             ∧ criteria.Compare (WeaponBonus.SpecializationCriteria w) = criteria.Any
             ∧ criteria.Compare (WeaponBonus.TagsCriteria w) = criteria.Any) →
          WeaponBonus.FeatureMapKey (WeaponBonus.ApplyNameableKeys nameables_Apply w m)
          = WeaponBonus.Returns (prefix +:+ "*")))
  ∧ (∀ raw : Z,
       WeaponBonus.SelectionType w = weapon.other raw →
       WeaponBonus.FeatureMapKey (WeaponBonus.ApplyNameableKeys nameables_Apply w m)
       = WeaponBonus.Fatal).
Proof.
  destruct w as [ty pc sel [nc nq] [sc sq] rl [tc tq] la ow].
  unfold WeaponBonus.ApplyNameableKeys, WeaponBonus.FeatureMapKey, WeaponBonus.buildKey.
  cbn. split; [|split].
  - by intros ->.
  - intros prefix Hsel. split.
    + intros (-> & -> & ->). by destruct Hsel as [[-> ->]|[-> ->]].
    + intros Hnot.
      assert (bool_decide (nc = criteria.Is)
              && (bool_decide (sc = criteria.Any) && bool_decide (tc = criteria.Any))
              = false) as Hb.
      { apply not_true_is_false. intros Ht. apply Hnot.
        apply andb_true_iff in Ht as [?%bool_decide_eq_true Ht].
        apply andb_true_iff in Ht as [?%bool_decide_eq_true ?%bool_decide_eq_true].
        done. }
      destruct Hsel as [[-> ->]|[-> ->]]; cbn; by rewrite Hb.
  - by intros raw ->.
Qed.

Section SampleApplyKeys.
#[local] Existing Instance Sample.spec_fxp.
#[local] Existing Instance Sample.model.

Example ApplyNameableKeys_ex :
  WeaponBonus.FeatureMapKey
    (WeaponBonus.ApplyNameableKeys (λ str m, ApplyNameables str (map_to_list m))
       (WeaponBonus.mk "weapon_bonus" false weapon.WithName
          (criteria.mkString criteria.Is "@Weapon@") (criteria.mkString criteria.Any "")
          (criteria.mkNumeric criteria.AtLeast 0) (criteria.mkString criteria.Any "")
          (WeaponBonus.mkLeveledAmount 0 10000 false) None)
       {[ "Weapon" := "Broadsword" ]})
  = WeaponBonus.Returns "weapon_named./Broadsword".
Proof. vm_compute. reflexivity. Qed.

End SampleApplyKeys.

(** ** SkillDefault: skill-based defaults without a skill *)

(** X18. For a Skill, Parry or Block default, neither resolution looks at the
    rule-of-20 flag, and when no skill matches both return the sentinel
    [fxp.Min], whatever the modifier and the entity's bonuses. *)
Theorem skill_based_levels_ignore_ruleOf20 {ops : fxp.Ops} {model : Model}
    (s : SkillDefault.t) (entity : Entity) (replacements : SkillDefault.Replacements)
    (requirePoints : bool) (excludes : gmap string bool) (ruleOf20 ruleOf20' : bool) :
  SkillDefault.DefaultType s = SkillID ∨ SkillDefault.DefaultType s = ParryID
  ∨ SkillDefault.DefaultType s = BlockID →
  SkillDefault.SkillLevel s entity replacements requirePoints excludes ruleOf20
  = SkillDefault.SkillLevel s entity replacements requirePoints excludes ruleOf20'
  ∧ SkillDefault.SkillLevelFast s entity replacements requirePoints excludes ruleOf20
    = SkillDefault.SkillLevelFast s entity replacements requirePoints excludes ruleOf20'
  ∧ (SkillNamed entity (SkillDefault.NameWithReplacements s replacements)
       (SkillDefault.SpecializationWithReplacements s replacements)
       requirePoints excludes = [] →
     SkillDefault.SkillLevel s entity replacements requirePoints excludes ruleOf20 = fxp.Min
     ∧ SkillDefault.SkillLevelFast s entity replacements requirePoints excludes ruleOf20
       = fxp.Min).
Proof.
  intros Htype.
  destruct DefaultTypeIDs_ne as (Hdp & Hdb & Hds & Hpb & Hps & Hbs).
  unfold SkillDefault.SkillLevel, SkillDefault.SkillLevelFast, SkillDefault.Type_,
    SkillDefault.best, SkillDefault.bestFast.
  destruct Htype as [-> | [-> | ->]].
  - destruct (String.eqb_spec SkillID ParryID); [congruence|].
    destruct (String.eqb_spec SkillID BlockID); [congruence|].
    destruct (String.eqb_spec SkillID DodgeID); [congruence|].
    rewrite String.eqb_refl. split; [done|]. split; [done|].
    intros ->. split; apply finalLevel_Min.
  - destruct (String.eqb_spec ParryID DodgeID); [congruence|].
    rewrite String.eqb_refl. split; [done|]. split; [done|].
    intros ->. cbn [SkillDefault.best_range SkillDefault.bestFast_range].
    rewrite bool_decide_false by auto. split; apply finalLevel_Min.
  - destruct (String.eqb_spec BlockID ParryID); [congruence|].
    destruct (String.eqb_spec BlockID DodgeID); [congruence|].
    rewrite String.eqb_refl. split; [done|]. split; [done|].
    intros ->. cbn [SkillDefault.best_range SkillDefault.bestFast_range].
    rewrite bool_decide_false by auto. split; apply finalLevel_Min.
Qed.

Lemma skill_based_levels_ignore_ruleOf20_witness :
  SkillDefault.SkillLevel (model := Sample.model)
    (SkillDefault.mk "skill" "Shield" "" 10000 0 0 0) (Sample.fencer 120000 0)
    SkillDefault.no_replacements false ∅ true
  = (- 2 ^ 63)%Z.
Proof.
  refine (proj1 (proj2 (proj2 (skill_based_levels_ignore_ruleOf20 (model := Sample.model)
            (SkillDefault.mk "skill" "Shield" "" 10000 0 0 0) (Sample.fencer 120000 0)
            SkillDefault.no_replacements false ∅ true false (or_introl eq_refl))) _)).
  reflexivity.
Defined.

(** ** ApplyNameables on a text without tokens *)

(** X19. [ApplyNameables] returns the text as it is when the text holds at
    most one marker, and also when it holds none of the tokens ["@key@"] of
    the entries the map is visited with. *)
Theorem ApplyNameables_unchanged (str : string) (order : list (string * string)) :
  (Strings.Count str "@" ≤ 1)%nat
  ∨ (∀ kv, kv ∈ order → Strings.Count str ("@" +:+ kv.1 +:+ "@") = 0) →
  ApplyNameables str order = str.
Proof.
  intros Hcase. unfold ApplyNameables.
  destruct (Nat.ltb_spec 1 (Strings.Count str "@")) as [Hlt|Hle]; [|done].
  destruct Hcase as [Hle|Hno]; [lia|]. by apply replace_absent_tokens.
Qed.

Lemma ApplyNameables_unchanged_witness :
  ApplyNameables "50% @ half price" [("ST", "14")] = "50% @ half price"
  ∧ ApplyNameables "@DX@ is @high@" [("ST", "14")] = "@DX@ is @high@".
Proof.
  split.
  - apply ApplyNameables_unchanged. left. vm_compute. lia.
  - apply ApplyNameables_unchanged. right.
    intros kv ->%list_elem_of_singleton. reflexivity.
Defined.
